(** * typeorm-simple-history: field-level change history for TypeORM entities

    A shallow embedding of [src/index.ts]: the registry kept by
    [HistoryModule], the update hook [beforeUpdate] of the generated
    subscriber, and the [hydrate] utility, with the properties stated about
    them in the specification. *)

From Stdlib Require Import ZArith Ascii String.
From stdpp Require Import gmap strings list fin_maps.

#[local] Set Warnings "-register-all".
#[local] Open Scope string_scope.
#[local] Open Scope Z_scope.
#[local] Open Scope list_scope.

(** * JavaScript data

    Entities, diffs and annotations are data.  A number is [NaN] or a
    number that equals itself, for which an integer stands (signed zeros
    are one number, as they are for [===]); a [Date] is its time value,
    [NaN] for an invalid date; an object is a finite map from its own
    enumerable property names to values, and an array is given by the same
    map of its indices (arrays have no holes), so that equality of values
    is structural equality.  A string is a sequence of bytes, that of its
    encoding; ASCII characters are the bytes below 128.  The two states
    of an update share no object, data is not cyclic, and a data object
    has no property named [valueOf] or [toString]. *)

Inductive number :=
  | Num (z : Z)
  | NaN.

Coercion Num : Z >-> number.

(** [a === b] on two numbers: [NaN] equals nothing. *)
Definition numberEq (a b : number) : bool :=
  match a, b with
  | Num x, Num y => Z.eqb x y
  | _, _ => false
  end.

Definition isNaN (n : number) : bool :=
  match n with NaN => true | Num _ => false end.

Inductive value :=
  | VUndef
  | VNull
  | VBool (b : bool)
  | VNum (n : number)
  | VStr (s : string)
  | VDate (t : number)
  | VObj (o : gmap string value)
  | VArr (o : gmap string value).

Abbreviation Obj := (gmap string value).

(** [o.k]: reading a property that is absent yields [undefined]. *)
Definition get (o : Obj) (k : string) : value := default VUndef (o !! k).

(** [Boolean(v)], the test behind [&&], [||] and [!]. *)
Definition truthy (v : value) : bool :=
  match v with
  | VUndef | VNull => false
  | VBool b => b
  | VNum (Num n) => negb (Z.eqb n 0)
  | VNum NaN => false
  | VStr s => negb (String.eqb s "")
  | VDate _ | VObj _ | VArr _ => true
  end.

(** [Object.keys(v).length] for a value that is an object; a [Date] has no
    own enumerable property. *)
Definition keysLength (v : value) : nat :=
  match v with
  | VObj o | VArr o => size o
  | _ => 0%nat
  end.

(** [v === Object(v)]: the value is an object and not a primitive. *)
Definition isObjectValue (v : value) : bool :=
  match v with VObj _ | VArr _ | VDate _ => true | _ => false end.

(** The size of a value, the measure behind induction on nested objects. *)
Fixpoint vsize (v : value) : nat :=
  match v with
  | VObj o | VArr o => S (map_fold (λ _ x acc, (vsize x + acc)%nat) 0%nat o)
  | _ => 0%nat
  end.

(** * The host

    Two answers of the JavaScript engine are taken as they come.
    [toLocaleLowerCase] is [String.prototype.toLocaleLowerCase]: it
    follows the Unicode case mappings and the locale of the host.
    [dateLooselyEqualsArray t items] is the answer of [==] between the
    time value [t] of a [Date] and an array, which the engine compares
    through the array's string form. *)

Class Host := {
  toLocaleLowerCase : string → string;
  dateLooselyEqualsArray : number → Obj → bool;
}.

(** * The [deep-object-diff] package

    [index.ts] imports [diff] from the npm package [deep-object-diff] under
    the name [deepDiff].  The package is a dependency, not part of the
    repository; the definitions below follow its [utils.js] and [diff.js]
    (release 1.1.9). *)

Module DeepObjectDiff.

(** [d instanceof Date] *)
Definition isDate (v : value) : bool :=
  match v with VDate _ => true | _ => false end.

(** [o != null && typeof o === 'object'] *)
Definition isObject (v : value) : bool :=
  match v with VObj _ | VArr _ | VDate _ => true | _ => false end.

(** [Object.keys(o).length === 0] *)
Definition isEmpty (v : value) : bool := Nat.eqb (keysLength v) 0.

(** [isObject(o) && isEmpty(o)] *)
Definition isEmptyObject (v : value) : bool := isObject v && isEmpty v.

(** [lhs === rhs] on primitives.  On two objects [===] is identity of
    references, and the two sides share no object. *)
Definition strictEq (lhs rhs : value) : bool :=
  match lhs, rhs with
  | VUndef, VUndef | VNull, VNull => true
  | VBool a, VBool b => Bool.eqb a b
  | VNum a, VNum b => numberEq a b
  | VStr a, VStr b => String.eqb a b
  | _, _ => false
  end.

(** The test inside the [reduce] over [Object.keys(rhs)] for a key that
    both sides own, with [a = lhs[key]], [b = rhs[key]] and
    [difference = diff(lhs[key], rhs[key])]: the key is skipped when
    [isEmptyObject(difference) && !isDate(difference) &&
     (isEmptyObject(lhs[key]) || !isEmptyObject(rhs[key]))]. *)
Definition noDifference (a b difference : value) : bool :=
  isEmptyObject difference && negb (isDate difference)
  && (isEmptyObject a || negb (isEmptyObject b)).

Section WithHost.

Context {host : Host}.

(** [lhs.valueOf() == rhs.valueOf()] where one side at least is a
    [Date]: two dates compare their time values; a [Date] and an array
    compare as the host says; a [Date] and a plain data object (which
    does not redefine [valueOf] or [toString]) are never loosely equal. *)
Definition valueOfEq (lhs rhs : value) : bool :=
  match lhs, rhs with
  | VDate a, VDate b => numberEq a b
  | VDate t, VArr items | VArr items, VDate t => dateLooselyEqualsArray t items
  | _, _ => false
  end.

(** [diff(lhs, rhs)]: "the difference of the original and updated
    objects", holding the values of the updated object [rhs].  The
    [merge] runs the two reductions of the source key by key: a key of
    [lhs] that [rhs] lacks goes to [deletedValues] as [undefined], a key
    of [rhs] that [lhs] lacks is copied, and a key of both is kept with
    the nested difference unless [noDifference].  The result is a plain
    object, also for two arrays. *)
Fixpoint diff (lhs rhs : value) {struct lhs} : value :=
  if strictEq lhs rhs then VObj ∅
  else if negb (isObject lhs) || negb (isObject rhs) then rhs
  else if isDate lhs || isDate rhs then
    if valueOfEq lhs rhs then VObj ∅ else rhs
  else match lhs with
  | VObj l | VArr l =>
      match rhs with
      | VObj r | VArr r =>
          VObj (merge (λ ol or,
            match ol, or with
            | Some _, None => Some VUndef
            | None, Some b => Some b
            | Some a, Some b =>
                let difference := diff a b in
                if noDifference a b difference then None else Some difference
            | None, None => None
            end) l r)
      | _ => rhs
      end
  | _ => rhs
  end.

End WithHost.

End DeepObjectDiff.

Definition deepDiff {host : Host} : value → value → value :=
  DeepObjectDiff.diff.

(** * [index.ts]: helpers *)

(** [!(passedObj && passedObj === Object(passedObj)
      && Object.keys(passedObj).length !== 0)] *)
Definition isEmptyObj (passedObj : value) : bool :=
  negb (truthy passedObj
        && isObjectValue passedObj
        && negb (Nat.eqb (keysLength passedObj) 0)).

(** * Errors

    [Throw NotRegistered] is [throw new Error('Provided entity is not
    registered for history tracking')]; [Throw TypeError] is the error of
    reading [getRepository] from a [config] that is still [undefined];
    [External] wraps whatever the persistence layer throws or rejects
    with. *)

Inductive Error :=
  | NotRegistered
  | TypeError
  | External (e : string).

Inductive Result (A : Type) :=
  | Ok (a : A)
  | Throw (e : Error).
Arguments Ok {A} a.
Arguments Throw {A} e.

(** The outcome of a call into the persistence layer. *)
Inductive Ext (A : Type) :=
  | Returned (a : A)
  | Thrown (e : string).
Arguments Returned {A} a.
Arguments Thrown {A} e.

(** An error thrown by the persistence layer passes through this module
    unchanged. *)
Definition external {A} (x : Ext A) : Result A :=
  match x with
  | Returned a => Ok a
  | Thrown e => Throw (External e)
  end.

(** * The exported type [History<E>] *)

Record History := mkHistory {
  id : Z;
  origin : value;
  diff : Obj;
  historyDetails : value;
  createdAt : Z;
}.

(** * Classes

    A class is known to this module through its [name] only.  The two
    classes that [createHistoryEntityAndSubscriber] declares are closures
    over [entityClass] and [historyEntityName]; each is represented by what
    it captured. *)

Record Constructor := { class_name : string }.

(** [@Entity({ name: historyEntityName }) class MyHistoryEntity], with its
    [@ManyToOne(entityClass.name, 'id') origin]. *)
Record MyHistoryEntity := {
  tableName : string;
  originEntity : string;
}.

(** [@EventSubscriber() class MyEntitySubscriber]: [listenTo()] returns the
    captured [entityClass]; [beforeUpdate] is defined below. *)
Record MyEntitySubscriber := {
  listenTo : Constructor;
  historyEntityName : string;
}.

Record Entry := {
  name : string;
  entity : MyHistoryEntity;
  subscriber : MyEntitySubscriber;
}.

(** The object literal [{ origin: oldEntity.id, diff, historyDetails }]
    handed to [historyRepository.create]. *)
Record HistoryInput := {
  input_origin : value;
  input_diff : value;
  input_historyDetails : value;
}.

(** The argument of [getHistoryRepository]: [string | EntityTarget<E>], a
    class, a name, or an object such as an [EntitySchema]. *)
Inductive EntityTarget :=
  | TargetClass (c : Constructor)
  | TargetName (s : string)
  | TargetObject.

(** What this module passes to [config.getRepository]: a history entity
    name (in [beforeUpdate]) or a history entity class (in
    [getHistoryRepository]). *)
Inductive RepositoryTarget :=
  | ByName (n : string)
  | ByEntity (e : MyHistoryEntity).

(** The update event of TypeORM: [entity] (the state being written) and
    [databaseEntity] (the state in the database) may be missing;
    [queryRunner.data] is the object that carries what the caller passed
    as [data] with the operation, [{}] when nothing was passed. *)
Module UpdateEvent.
Record QueryRunner := { data : Obj }.
Record t := {
  entity : option Obj;
  databaseEntity : option Obj;
  queryRunner : QueryRunner;
}.
End UpdateEvent.

(** [x || {}] for an [x] that is an object or missing. *)
Definition orEmpty (x : option Obj) : Obj := default ∅ x.

(** * The persistence layer

    TypeORM is outside the repository.  Its state is a [World]; a
    [Repository] is an object with the two methods this module calls:
    [create] builds an entity instance ([Row]) from a plain object, [save]
    writes it.  [config.getRepository], [create] and [save] are code of
    the caller and of TypeORM: each may throw. *)

Section Persistence.

Context {host : Host} {World Row : Type}.

Record Repository := {
  create : HistoryInput → Ext Row;
  save : Row → World → Ext unit * World;
}.

Record Config := { getRepository : RepositoryTarget → Ext Repository }.

(** [abstract class HistoryModule]: its two static fields.  [config] is
    [undefined] until [setup] assigns it. *)
Record HistoryModule := {
  entries : list Entry;
  config : option Config;
}.

(** The module when the file has been loaded. *)
Definition initialModule : HistoryModule :=
  {| entries := []; config := None |}.

(** Static methods run on the module's state and either return or
    throw. *)
Definition M (A : Type) : Type := HistoryModule → Result A * HistoryModule.

Definition ret {A} (a : A) : M A := λ m, (Ok a, m).
Definition throw {A} (e : Error) : M A := λ m, (Throw e, m).
Definition bind {A B} (x : M A) (f : A → M B) : M B :=
  λ m, match x m with
       | (Ok a, m') => f a m'
       | (Throw e, m') => (Throw e, m')
       end.
Definition readEntries : M (list Entry) := λ m, (Ok (entries m), m).
Definition push (entry : Entry) : M unit :=
  λ m, (Ok tt, {| entries := entries m ++ [entry]; config := config m |}).

(** [HistoryModule.config.getRepository(target)]: reading the method from
    an [undefined] config is a [TypeError]; the call may throw. *)
Definition configGetRepository (target : RepositoryTarget) : M Repository :=
  λ m, match config m with
       | None => (Throw TypeError, m)
       | Some cfg => (external (getRepository cfg target), m)
       end.

Definition setup (cfg : Config) : M unit :=
  λ m, (Ok tt, {| entries := entries m; config := Some cfg |}).

Definition getEntities : M (list MyHistoryEntity) :=
  bind readEntries (λ es, ret (map entity es)).

Definition getSubscribers : M (list MyEntitySubscriber) :=
  bind readEntries (λ es, ret (map subscriber es)).

Definition createHistoryEntityAndSubscriber (entityClass : Constructor) : Entry :=
  let entityName := toLocaleLowerCase (class_name entityClass) in
  let historyEntityName := entityName +:+ "_history" in
  {| name := entityName;
     entity := {| tableName := historyEntityName;
                  originEntity := class_name entityClass |};
     subscriber := {| listenTo := entityClass;
                      historyEntityName := historyEntityName |} |}.

(** [TrackHistory()(target)]: the decorator applied to its class. *)
Definition TrackHistory (target : Constructor) : M Constructor :=
  let entry := createHistoryEntityAndSubscriber target in
  bind (push entry) (λ _, ret target).

Definition trackHistory (MyEntity : Constructor) : M unit :=
  let entry := createHistoryEntityAndSubscriber MyEntity in
  push entry.

(** [(typeof entityClass === 'function' ? entityClass.name : entityClass)
     .toString()]; an object that is neither prints as
    ["[object Object]"]. *)
Definition targetString (entityClass : EntityTarget) : string :=
  match entityClass with
  | TargetClass c => class_name c
  | TargetName s => s
  | TargetObject => "[object Object]"
  end.

Definition getHistoryRepository (entityClass : EntityTarget) : M Repository :=
  let entityName := toLocaleLowerCase (targetString entityClass) in
  bind readEntries (λ es,
    match entity <$> List.find (λ e, String.eqb (name e) entityName) es with
    | None => throw NotRegistered
    | Some entity => configGetRepository (ByEntity entity)
    end).

(** ** The update hook

    [MyEntitySubscriber.beforeUpdate]: [self] is the subscriber, the
    module is read for its [config], and the write goes to the
    persistence layer.  The method is [async] and awaits [save]: it is
    over when [save] is, and fails when [save] does. *)

Definition beforeUpdate (self : MyEntitySubscriber) (event : UpdateEvent.t)
    (module : HistoryModule) (w : World) : Result unit * World :=
  let newEntity := orEmpty (UpdateEvent.entity event) in
  let oldEntity := orEmpty (UpdateEvent.databaseEntity event) in
  let historyDetails :=
    get (UpdateEvent.data (UpdateEvent.queryRunner event)) "historyDetails" in
  let diff := deepDiff (VObj newEntity) (VObj oldEntity) in
  if negb (isEmptyObj diff) then
    match configGetRepository (ByName (historyEntityName self)) module with
    | (Throw e, _) => (Throw e, w)
    | (Ok historyRepository, _) =>
        match create historyRepository
                {| input_origin := get oldEntity "id";
                   input_diff := diff;
                   input_historyDetails := historyDetails |} with
        | Thrown e => (Throw (External e), w)
        | Returned data =>
            let (saved, w') := save historyRepository data w in
            (external saved, w')
        end
    end
  else (Ok tt, w).

(** The locals of [beforeUpdate] as functions of the event. *)
Definition newEntity (event : UpdateEvent.t) : Obj :=
  orEmpty (UpdateEvent.entity event).
Definition oldEntity (event : UpdateEvent.t) : Obj :=
  orEmpty (UpdateEvent.databaseEntity event).

(** [const diff = deepDiff(newEntity, oldEntity)] *)
Definition computedDiff (event : UpdateEvent.t) : value :=
  deepDiff (VObj (newEntity event)) (VObj (oldEntity event)).

(** [{ origin: oldEntity.id, diff, historyDetails }] *)
Definition historyInput (event : UpdateEvent.t) : HistoryInput :=
  {| input_origin := get (oldEntity event) "id";
     input_diff := computedDiff event;
     input_historyDetails :=
       get (UpdateEvent.data (UpdateEvent.queryRunner event)) "historyDetails" |}.

(** Lines 94 to 96 of the hook, for the row [input]: the repository is
    asked for, the instance created and saved; the first of the three
    that throws ends the hook. *)
Definition writeHistory (self : MyEntitySubscriber) (input : HistoryInput)
    (module : HistoryModule) (w : World) : Result unit * World :=
  match config module with
  | None => (Throw TypeError, w)
  | Some cfg =>
      match getRepository cfg (ByName (historyEntityName self)) with
      | Thrown e => (Throw (External e), w)
      | Returned repo =>
          match create repo input with
          | Thrown e => (Throw (External e), w)
          | Returned row =>
              (external (fst (save repo row w)), snd (save repo row w))
          end
      end
  end.

End Persistence.

Arguments Repository : clear implicits.
Arguments Config : clear implicits.
Arguments HistoryModule : clear implicits.

(** ** A persistence layer that records its writes

    The world is the list of rows written so far, each with the target its
    repository was obtained for; every call succeeds. *)

Definition Recorded : Type := RepositoryTarget * HistoryInput.

Definition recordingRepository (target : RepositoryTarget)
    : Repository (list Recorded) HistoryInput :=
  {| create := λ input, Returned input;
     save := λ row w, (Returned tt, w ++ [(target, row)]) |}.

Definition recordingConfig : Config (list Recorded) HistoryInput :=
  {| getRepository := λ target, Returned (recordingRepository target) |}.

(** A persistence layer whose every write is rejected. *)
Definition failingConfig : Config (list Recorded) HistoryInput :=
  {| getRepository := λ _,
       Returned
         {| create := λ input, Returned input;
            save := λ _ w, (Thrown "storage unavailable", w) |} |}.

(** A persistence layer without connection: no repository can be had. *)
Definition disconnectedConfig : Config (list Recorded) HistoryInput :=
  {| getRepository := λ _, Thrown "connection not found" |}.

(** * [hydrate] *)

(** [Object.assign(target, source)]: the properties of [source] are written
    over those of [target]. *)
Definition assign (target source : Obj) : Obj := source ∪ target.

(** [{ ...pivot, ...diff, id, historyDetails, createdAt }]: later
    properties win. *)
Definition nextPivot (pivot : Obj) (h : History) : Obj :=
  <["createdAt" := VDate (createdAt h)]>
    (<["historyDetails" := historyDetails h]>
       (<["id" := VNum (id h)]> (diff h ∪ pivot))).

(** [history.map(...)] with the variable [pivot] that the callback reads
    and reassigns. *)
Fixpoint mapHistory (pivot : Obj) (history : list History) : list Obj :=
  match history with
  | [] => []
  | h :: rest =>
      let pivot' := nextPivot pivot h in
      pivot' :: mapHistory pivot' rest
  end.

Definition hydrate (current : Obj) (history : list History) : list Obj :=
  let pivot := assign {[ "originId" := get current "id" ]} current in
  mapHistory pivot history.

(** ** The fold of the specification

    The pivot starts as [current] augmented with [originId = current.id];
    element [i] of the output is that pivot after the entries
    [history[0..i]], each overlaying its [diff] and then overriding [id],
    [historyDetails] and [createdAt]. *)
Definition spec_overlay (pivot : Obj) (h : History) : Obj :=
  <["createdAt" := VDate (createdAt h)]>
    (<["historyDetails" := historyDetails h]>
       (<["id" := VNum (id h)]> (diff h ∪ pivot))).

Definition spec_start (current : Obj) : Obj :=
  <["originId" := get current "id"]> current.

Definition spec_hydrate_from (start : Obj) (history : list History) : list Obj :=
  map (λ i, fold_left spec_overlay (take (S i) history) start)
      (seq 0 (length history)).

Definition spec_hydrate (current : Obj) (history : list History) : list Obj :=
  spec_hydrate_from (spec_start current) history.

(** * [hydrate] on a store of objects

    JavaScript objects are references.  To state what [hydrate] leaves
    untouched, the same code is run here on a store: [current], the array
    [history], its entries and their [diff] objects are cells that the
    function receives by reference; [Object.assign] writes into its target
    cell, an object literal and [Array.prototype.map] allocate.  An
    operation yields [None] where JavaScript would fail on a reference of
    the wrong kind. *)

Module Store.

Abbreviation loc := nat.

Inductive cell :=
  | ObjectCell (props : Obj)
  | HistoryCell (id : Z) (origin : value) (diff : loc)
                (historyDetails : value) (createdAt : Z)
  | ArrayCell (items : list loc).

Abbreviation store := (list cell).

Definition Op (A : Type) : Type := store → option (A * store).

#[global] Instance op_ret : MRet Op := λ A a s, Some (a, s).
#[global] Instance op_bind : MBind Op := λ A B f x s,
  match x s with
  | Some (a, s') => f a s'
  | None => None
  end.

Definition alloc (c : cell) : Op loc := λ s, Some (length s, s ++ [c]).

Definition write (l : loc) (c : cell) : Op unit := λ s,
  if decide (l < length s)%nat then Some (tt, <[l := c]> s) else None.

Definition loadObject (l : loc) : Op Obj := λ s,
  match s !! l with
  | Some (ObjectCell props) => Some (props, s)
  | _ => None
  end.

Definition loadArray (l : loc) : Op (list loc) := λ s,
  match s !! l with
  | Some (ArrayCell items) => Some (items, s)
  | _ => None
  end.

(** The destructuring [{ id, diff, historyDetails, createdAt }] of an
    entry, followed by the read of the object that [diff] refers to. *)
Definition loadHistory (l : loc) : Op History := λ s,
  match s !! l with
  | Some (HistoryCell i o d hd ca) =>
      match s !! d with
      | Some (ObjectCell props) => Some (mkHistory i o props hd ca, s)
      | _ => None
      end
  | _ => None
  end.

(** [Object.assign(target, source)] mutates and returns [target]. *)
Definition objectAssign (target source : loc) : Op loc :=
  src ← loadObject source;
  tgt ← loadObject target;
  _ ← write target (ObjectCell (assign tgt src));
  mret target.

Fixpoint mapHistory (pivot : loc) (items : list loc) : Op (list loc) :=
  match items with
  | [] => mret []
  | entry :: rest =>
      h ← loadHistory entry;
      p ← loadObject pivot;
      pivot' ← alloc (ObjectCell (nextPivot p h));
      out ← mapHistory pivot' rest;
      mret (pivot' :: out)
  end.

Definition hydrate (current history : loc) : Op loc :=
  c ← loadObject current;
  target ← alloc (ObjectCell {[ "originId" := get c "id" ]});
  pivot ← objectAssign target current;
  items ← loadArray history;
  out ← mapHistory pivot items;
  alloc (ArrayCell out).

(** Reading data back from a store. *)
Definition readObject (s : store) (l : loc) : option Obj :=
  fst <$> loadObject l s.

Definition readHistory (s : store) (l : loc) : option History :=
  fst <$> loadHistory l s.

Definition readHistories (s : store) (l : loc) : option (list History) :=
  items ← fst <$> loadArray l s; mapM (readHistory s) items.

Definition readObjects (s : store) (l : loc) : option (list Obj) :=
  items ← fst <$> loadArray l s; mapM (readObject s) items.

End Store.

(** * Registrations and letter case *)

(** The module right after [setup(cfg)], before any registration. *)
Definition afterSetup {World Row} (cfg : Config World Row)
    : HistoryModule World Row :=
  {| entries := []; config := Some cfg |}.

(** The module after [trackHistory] was called on each class of [cs], in
    order. *)
Definition registerAll {host : Host} {World Row} (cs : list Constructor)
    (m : HistoryModule World Row) : HistoryModule World Row :=
  foldl (λ m c, snd (trackHistory c m)) m cs.

(** Lower-casing of the letters [A] to [Z], every other character kept:
    what [toLocaleLowerCase] does to a string of ASCII characters in a
    locale without special rules for these letters. *)
Definition lowerAscii (c : ascii) : ascii :=
  let n := nat_of_ascii c in
  if (65 <=? n)%nat && (n <=? 90)%nat then ascii_of_nat (n + 32) else c.

Fixpoint asciiLowerCase (s : string) : string :=
  match s with
  | EmptyString => EmptyString
  | String c rest => String (lowerAscii c) (asciiLowerCase rest)
  end.







(** The host of the examples below, which use ASCII names and compare no
    [Date] with an array. *)
Definition asciiHost : Host :=
  {| toLocaleLowerCase := asciiLowerCase;
     dateLooselyEqualsArray := λ _ _, false |}.

(** * Auxiliary definitions and example data *)

(** A value without [NaN], as a number or as the time of a [Date], at any
    depth. *)
Fixpoint nanFree (v : value) : bool :=
  match v with
  | VNum n | VDate n => negb (isNaN n)
  | VObj o | VArr o => map_fold (λ _ x acc, nanFree x && acc) true o
  | _ => true
  end.

(** Every value of a map of booleans is [true]. *)
Definition allTrue (m : gmap string bool) : bool :=
  map_fold (λ _ b acc, b && acc) true m.

(** Two values of which, wherever both hold an object at the same place,
    the two objects are of one kind: two plain objects, two arrays or two
    [Date]s. *)
Fixpoint kindsAgree (a b : value) {struct a} : bool :=
  match a with
  | VObj l =>
      match b with
      | VObj r =>
          allTrue (merge (λ x y,
            match x, y with
            | Some a', Some b' => Some (kindsAgree a' b')
            | _, _ => None
            end) l r)
      | VArr _ | VDate _ => false
      | _ => true
      end
  | VArr l =>
      match b with
      | VArr r =>
          allTrue (merge (λ x y,
            match x, y with
            | Some a', Some b' => Some (kindsAgree a' b')
            | _, _ => None
            end) l r)
      | VObj _ | VDate _ => false
      | _ => true
      end
  | VDate _ =>
      match b with
      | VObj _ | VArr _ => false
      | _ => true
      end
  | _ => true
  end.

(** What [deepDiff] does with one key of two objects, given the key's
    entries on either side: the function that [diff] merges with. *)
Definition diffKey {host : Host} (ol or : option value) : option value :=
  match ol, or with
  | Some _, None => Some VUndef
  | None, Some b => Some b
  | Some a, Some b =>
      if DeepObjectDiff.noDifference a b (DeepObjectDiff.diff a b) then None
      else Some (DeepObjectDiff.diff a b)
  | None, None => None
  end.

(** The running example of the specification: the stored record is
    [{a: 1, b: 2}], the update brings [{a: 1, b: 3}]. *)
Definition example_previous : Obj := {[ "a" := VNum 1; "b" := VNum 2 ]}.
Definition example_incoming : Obj := {[ "a" := VNum 1; "b" := VNum 3 ]}.

Definition example_event : UpdateEvent.t :=
  {| UpdateEvent.entity := Some example_incoming;
     UpdateEvent.databaseEntity := Some example_previous;
     UpdateEvent.queryRunner := {| UpdateEvent.data := ∅ |} |}.

(** An update that changes nothing, annotated by its caller. *)
Definition example_noop_event : UpdateEvent.t :=
  {| UpdateEvent.entity := Some example_previous;
     UpdateEvent.databaseEntity := Some example_previous;
     UpdateEvent.queryRunner :=
       {| UpdateEvent.data := {[ "historyDetails" := VStr "editor" ]} |} |}.

(** An update without incoming state. *)
Definition example_absent_event : UpdateEvent.t :=
  {| UpdateEvent.entity := None;
     UpdateEvent.databaseEntity :=
       Some {[ "id" := VNum 7; "firstName" := VStr "John" ]};
     UpdateEvent.queryRunner := {| UpdateEvent.data := ∅ |} |}.

(** An update that leaves a record with a [NaN] field as it is. *)
Definition example_nan_event : UpdateEvent.t :=
  {| UpdateEvent.entity := Some {[ "a" := VNum NaN ]};
     UpdateEvent.databaseEntity := Some {[ "a" := VNum NaN ]};
     UpdateEvent.queryRunner := {| UpdateEvent.data := ∅ |} |}.

(** An update that replaces an empty object by an empty array. *)
Definition example_array_event : UpdateEvent.t :=
  {| UpdateEvent.entity := Some {[ "tags" := VArr ∅ ]};
     UpdateEvent.databaseEntity := Some {[ "tags" := VObj ∅ ]};
     UpdateEvent.queryRunner := {| UpdateEvent.data := ∅ |} |}.

(** Two classes whose names differ in letter case only. *)
Definition User : Constructor := {| class_name := "User" |}.
Definition USER : Constructor := {| class_name := "USER" |}.

Definition user_subscriber : MyEntitySubscriber :=
  subscriber (createHistoryEntityAndSubscriber (host := asciiHost) User).

(** Modules configured with the persistence layers above. *)
Definition recordingModule (es : list Entry)
    : HistoryModule (list Recorded) HistoryInput :=
  {| entries := es; config := Some recordingConfig |}.

Definition failingModule (es : list Entry)
    : HistoryModule (list Recorded) HistoryInput :=
  {| entries := es; config := Some failingConfig |}.

(** The record and the history of the specification's example of
    [hydrate]. *)
Definition john : Obj :=
  {[ "id" := VNum 1; "firstName" := VStr "John"; "lastName" := VStr "Wong" ]}.

Definition john_history : list History :=
  [ mkHistory 1 VUndef {[ "firstName" := VStr "Peter" ]} VNull 100;
    mkHistory 2 VUndef
      {[ "firstName" := VStr "John"; "lastName" := VStr "Stanbridge" ]}
      VNull 200 ].

(** A record that already has an [originId] of its own. *)
Definition rehydrated : Obj := {[ "id" := VNum 1; "originId" := VNum 7 ]}.
Definition rehydrated_history : list History :=
  [ mkHistory 5 VUndef ∅ VNull 100 ].

(** An entry whose [diff] itself has keys [id], [historyDetails] and
    [createdAt]. *)
Definition shadowing_history : list History :=
  [ mkHistory 3 VUndef
      {[ "id" := VNum 99; "historyDetails" := VStr "from diff";
         "createdAt" := VStr "never"; "firstName" := VStr "Peter" ]}
      VNull 100 ].

(** A store with the record of John and one entry of his history. *)
Definition example_store : Store.store :=
  [ Store.ObjectCell john;
    Store.ObjectCell {[ "firstName" := VStr "Peter" ]};
    Store.HistoryCell 1 VUndef 1 VNull 100;
    Store.ArrayCell [2%nat] ].

(** * Definitions for further properties *)

(** A call of one of the module's exported functions. *)
Inductive Call (World Row : Type) :=
  | CallSetup (cfg : Config World Row)
  | CallDecorator (target : Constructor)
  | CallTrackHistory (MyEntity : Constructor)
  | CallGetEntities
  | CallGetSubscribers
  | CallGetHistoryRepository (entityClass : EntityTarget).
Arguments CallSetup {World Row} cfg.
Arguments CallDecorator {World Row} target.
Arguments CallTrackHistory {World Row} MyEntity.
Arguments CallGetEntities {World Row}.
Arguments CallGetSubscribers {World Row}.
Arguments CallGetHistoryRepository {World Row} entityClass.

(** The module after a call, whether it returned or threw. *)
Definition call {host : Host} {World Row} (c : Call World Row)
    (m : HistoryModule World Row) : HistoryModule World Row :=
  match c with
  | CallSetup cfg => snd (setup cfg m)
  | CallDecorator target => snd (TrackHistory target m)
  | CallTrackHistory MyEntity => snd (trackHistory MyEntity m)
  | CallGetEntities => snd (getEntities m)
  | CallGetSubscribers => snd (getSubscribers m)
  | CallGetHistoryRepository entityClass =>
      snd (getHistoryRepository entityClass m)
  end.

(** The module after a sequence of calls. *)
Definition calls {host : Host} {World Row} (cs : list (Call World Row))
    (m : HistoryModule World Row) : HistoryModule World Row :=
  foldl (λ m c, call c m) m cs.

(** An entry as [createHistoryEntityAndSubscriber] makes them: stored
    under the lower-cased name of the class its subscriber listens to,
    with a history entity named after it that both the entity and the
    subscriber refer to. *)
Definition wellFormedEntry {host : Host} (e : Entry) : Prop :=
  name e = toLocaleLowerCase (class_name (listenTo (subscriber e))) ∧
  tableName (entity e) = name e +:+ "_history" ∧
  historyEntityName (subscriber e) = tableName (entity e) ∧
  originEntity (entity e) = class_name (listenTo (subscriber e)).

(** The value that the most recent entry of [history] whose [diff] has the
    key [k] gives to it, if there is such an entry. *)
Definition lastWrite (k : string) (history : list History) : option value :=
  foldl (λ acc h, match diff h !! k with Some v => Some v | None => acc end)
        None history.

(** The keys that every step of [hydrate] sets from the entry itself. *)
Definition entryKeys : list string := ["id"; "historyDetails"; "createdAt"].

(** An update of a record that the database does not know. *)
Definition example_unknown_event : UpdateEvent.t :=
  {| UpdateEvent.entity := Some example_incoming;
     UpdateEvent.databaseEntity := None;
     UpdateEvent.queryRunner := {| UpdateEvent.data := ∅ |} |}.

(** The class that a call registers, and the configuration that a call
    installs, if any. *)
Definition registeredBy {World Row} (c : Call World Row) : option Constructor :=
  match c with
  | CallDecorator t | CallTrackHistory t => Some t
  | _ => None
  end.

Definition configuredBy {World Row} (c : Call World Row)
    : option (Config World Row) :=
  match c with
  | CallSetup cfg => Some cfg
  | _ => None
  end.

(** The keys of a snapshot that [hydrate] sets itself. *)
Definition snapshotKeys : list string := "originId" :: entryKeys.

(** At every key that two records share, the two values are equal and
    hold no [NaN], or at least one of them is a primitive. *)
Definition sameOrFlat (new old : Obj) : Prop :=
  ∀ k a b, new !! k = Some a → old !! k = Some b →
    (a = b ∧ nanFree a = true) ∨
    DeepObjectDiff.isObject a && DeepObjectDiff.isObject b = false.

(** The event of an update that brings the stored record [old] to [new]. *)
Definition updateEvent (new old : Obj) : UpdateEvent.t :=
  {| UpdateEvent.entity := Some new;
     UpdateEvent.databaseEntity := Some old;
     UpdateEvent.queryRunner := {| UpdateEvent.data := ∅ |} |}.

(** [history] holds, newest first, the diffs that the hook computed for the
    updates that led to [current] through the [earlier] states (newest
    first as well); no update added a key, and no update changed an object
    into another object. *)
Fixpoint recordedNewestFirst {host : Host} (current : Obj) (earlier : list Obj)
    (history : list History) : Prop :=
  match earlier, history with
  | [], [] => True
  | old :: earlier', h :: history' =>
      computedDiff (updateEvent current old) = VObj (diff h) ∧
      dom current ⊆ dom old ∧
      sameOrFlat current old ∧
      recordedNewestFirst old earlier' history'
  | _, _ => False
  end.

(** A record whose field [b] was 1, then 2, and is 3 now, with the two
    entries recorded for its two updates, the newest first. *)
Definition thrice_now : Obj := {[ "a" := VNum 1; "b" := VNum 3 ]}.
Definition thrice_before : Obj := {[ "a" := VNum 1; "b" := VNum 2 ]}.
Definition thrice_first : Obj := {[ "a" := VNum 1; "b" := VNum 1 ]}.
Definition thrice_history : list History :=
  [ mkHistory 2 VUndef {[ "b" := VNum 2 ]} VNull 200;
    mkHistory 1 VUndef {[ "b" := VNum 1 ]} VNull 100 ].

(** * Tactics *)


(** * Nested values: size and induction *)

Lemma vsize_lookup (o : Obj) k v :
  o !! k = Some v →
  (vsize v < vsize (VObj o))%nat ∧ (vsize v < vsize (VArr o))%nat.
Proof.
  intros Hk. cbn [vsize].
  rewrite (map_fold_delete_L _ _ k v o); [lia | | done].
  intros; lia.
Qed.

Lemma value_nested_ind (P : value → Prop) :
  P VUndef → P VNull → (∀ b, P (VBool b)) → (∀ n, P (VNum n)) →
  (∀ s, P (VStr s)) → (∀ t, P (VDate t)) →
  (∀ o : Obj, map_Forall (λ _ v, P v) o → P (VObj o)) →
  (∀ o : Obj, map_Forall (λ _ v, P v) o → P (VArr o)) →
  ∀ v, P v.
Proof.
  intros Hu Hn Hb Hz Hs Hd Ho Ha v.
  remember (vsize v) as n eqn:Hsz. revert v Hsz.
  induction n as [n IH] using lt_wf_ind. intros v ->.
  destruct v; auto.
  - apply Ho. intros k v Hk. eapply IH; [|reflexivity].
    by eapply vsize_lookup.
  - apply Ha. intros k v Hk. eapply IH; [|reflexivity].
    by eapply vsize_lookup.
Qed.

Lemma allTrue_lookup (m : gmap string bool) k b :
  allTrue m = true → m !! k = Some b → b = true.
Proof.
  unfold allTrue. intros Hall Hk.
  rewrite (map_fold_delete_L _ _ k b m) in Hall; [| | done].
  - by apply andb_true_iff in Hall as [? _].
  - intros. by rewrite !andb_assoc, (andb_comm z1).
Qed.

Lemma nanFree_lookup (o : Obj) k v :
  nanFree (VObj o) = true → o !! k = Some v → nanFree v = true.
Proof.
  intros Hdf Hk. cbn [nanFree] in Hdf.
  rewrite (map_fold_delete_L _ _ k v o) in Hdf; [| | done].
  - by apply andb_true_iff in Hdf as [? _].
  - intros. by rewrite !andb_assoc, (andb_comm (nanFree z1)).
Qed.

Lemma nanFree_false_inv (o : Obj) :
  nanFree (VObj o) = false → ∃ k v, o !! k = Some v ∧ nanFree v = false.
Proof.
  cbn [nanFree]. induction o as [|i x m Hi IH] using map_ind.
  - by rewrite map_fold_empty.
  - rewrite map_fold_insert_L; [| |done].
    + intros [Hx|Hm]%andb_false_iff.
      * exists i, x. by rewrite lookup_insert_eq.
      * destruct (IH Hm) as (k & v & Hk & Hv). exists k, v.
        rewrite lookup_insert_ne; [done|]. intros ->. congruence.
    + intros. by rewrite !andb_assoc, (andb_comm (nanFree z1)).
Qed.

Lemma kindsAgree_lookup (l r : Obj) k a b :
  kindsAgree (VObj l) (VObj r) = true →
  l !! k = Some a → r !! k = Some b → kindsAgree a b = true.
Proof.
  cbn [kindsAgree]. intros Hall Ha Hb.
  apply (allTrue_lookup _ k _ Hall).
  by rewrite lookup_merge, Ha, Hb.
Qed.

Lemma numberEq_eq a b : numberEq a b = true → a = b.
Proof. destruct a, b; cbn; try done. by intros ->%Z.eqb_eq. Qed.

Lemma numberEq_refl (n : number) : isNaN n = false → numberEq n n = true.
Proof. destruct n; cbn; [|done]. intros _. apply Z.eqb_refl. Qed.

(** * Facts about [deepDiff] *)

Section DeepDiffFacts.
Context {host : Host}.
Import DeepObjectDiff.

(** The own enumerable properties of a plain object or an array. *)
Lemma diff_objects (l r : Obj) :
  diff (VObj l) (VObj r) = VObj (merge diffKey l r) ∧
  diff (VArr l) (VArr r) = VObj (merge diffKey l r) ∧
  diff (VObj l) (VArr r) = VObj (merge diffKey l r) ∧
  diff (VArr l) (VObj r) = VObj (merge diffKey l r).
Proof. done. Qed.

Lemma lookup_merge_diffKey (l r : Obj) k :
  merge diffKey l r !! k = diffKey (l !! k) (r !! k).
Proof.
  rewrite lookup_merge. unfold diag_None.
  by destruct (l !! k), (r !! k).
Qed.

Lemma strictEq_eq a b : strictEq a b = true → a = b.
Proof.
  destruct a, b; cbn; try done.
  - intros ?%Bool.eqb_prop. by subst.
  - intros ?%numberEq_eq. by subst.
  - intros ?%String.eqb_eq. by subst.
Qed.

(** Unless both sides are objects, the difference is the updated side. *)
Lemma diff_primitive a b :
  isObject a && isObject b = false →
  diff a b = if strictEq a b then VObj ∅ else b.
Proof. destruct a, b; try done; cbn; intros _; by repeat case_match. Qed.

Lemma isEmptyObject_inv v :
  isEmptyObject v = true → v = VObj ∅ ∨ v = VArr ∅ ∨ ∃ t, v = VDate t.
Proof.
  destruct v; cbn; try done; [eauto| |];
    unfold isEmptyObject, isEmpty; cbn; intros ?%Nat.eqb_eq.
  - left. f_equal. by apply map_size_empty_iff.
  - right. left. f_equal. by apply map_size_empty_iff.
Qed.

Lemma isEmptyObject_empty : isEmptyObject (VObj ∅) = true.
Proof. reflexivity. Qed.

(** A value without [NaN] has no difference from itself. *)
Lemma diff_same v : nanFree v = true → diff v v = VObj ∅.
Proof.
  induction v as [| |b|n|s|t|o IH|o IH] using value_nested_ind;
    intros Hnan; try done.
  - cbn. by rewrite Bool.eqb_reflx.
  - cbn. cbn in Hnan. by rewrite numberEq_refl by by apply negb_true_iff.
  - cbn. by rewrite String.eqb_refl.
  - cbn. cbn in Hnan. by rewrite numberEq_refl by by apply negb_true_iff.
  - rewrite (proj1 (diff_objects o o)). f_equal. apply map_eq. intros k.
    rewrite lookup_merge_diffKey, lookup_empty.
    destruct (o !! k) as [a|] eqn:Hk; cbn; [|done].
    rewrite (IH _ _ Hk) by by eapply nanFree_lookup. unfold noDifference.
    rewrite isEmptyObject_empty. cbn. by destruct (isEmptyObject a).
  - rewrite (proj1 (proj2 (diff_objects o o))). f_equal. apply map_eq.
    intros k. rewrite lookup_merge_diffKey, lookup_empty.
    destruct (o !! k) as [a|] eqn:Hk; cbn; [|done].
    rewrite (IH _ _ Hk) by by eapply (nanFree_lookup o).
    unfold noDifference.
    rewrite isEmptyObject_empty. cbn. by destruct (isEmptyObject a).
Qed.

Lemma noDifference_same v :
  nanFree v = true → noDifference v v (diff v v) = true.
Proof.
  intros Hnan. rewrite diff_same by done. unfold noDifference.
  rewrite isEmptyObject_empty. cbn. by destruct (isEmptyObject v).
Qed.

(** A value that holds a [NaN] differs from itself. *)
Lemma noDifference_NaN v :
  nanFree v = false → noDifference v v (diff v v) = false.
Proof.
  induction v as [| |b|n|s|t|o IH|o IH] using value_nested_ind;
    intros Hnan; try done.
  - by destruct n.
  - by destruct t.
  - destruct (nanFree_false_inv o Hnan) as (k & a & Hk & Ha).
    rewrite (proj1 (diff_objects o o)).
    destruct (noDifference (VObj o) (VObj o) _) eqn:Hnd; [|done].
    unfold noDifference at 1 in Hnd.
    apply andb_true_iff in Hnd as [Hnd _].
    apply andb_true_iff in Hnd as [Hnd _].
    apply isEmptyObject_inv in Hnd as [Hnd|[Hnd|[? Hnd]]]; try done.
    injection Hnd as Hnd. apply (f_equal (.!! k)) in Hnd.
    rewrite lookup_merge_diffKey, Hk, lookup_empty in Hnd. cbn in Hnd.
    by rewrite (IH _ _ Hk Ha) in Hnd.
  - destruct (nanFree_false_inv o Hnan) as (k & a & Hk & Ha).
    rewrite (proj1 (proj2 (diff_objects o o))).
    destruct (noDifference (VArr o) (VArr o) _) eqn:Hnd; [|done].
    unfold noDifference at 1 in Hnd.
    apply andb_true_iff in Hnd as [Hnd _].
    apply andb_true_iff in Hnd as [Hnd _].
    apply isEmptyObject_inv in Hnd as [Hnd|[Hnd|[? Hnd]]]; try done.
    injection Hnd as Hnd. apply (f_equal (.!! k)) in Hnd.
    rewrite lookup_merge_diffKey, Hk, lookup_empty in Hnd. cbn in Hnd.
    by rewrite (IH _ _ Hk Ha) in Hnd.
Qed.

(** An array against a plain object with the same properties, and a
    [Date] against an empty object, are reported as no difference. *)
Lemma noDifference_across_kinds (o : Obj) t :
  nanFree (VObj o) = true →
  noDifference (VArr o) (VObj o) (diff (VArr o) (VObj o)) = true ∧
  noDifference (VDate t) (VObj ∅) (diff (VDate t) (VObj ∅)) = true.
Proof.
  intros Hnan. split; [|done].
  rewrite (proj2 (proj2 (proj2 (diff_objects o o)))).
  rewrite <-(proj1 (diff_objects o o)), diff_same by done.
  unfold noDifference, isEmptyObject, isEmpty. cbn.
  by destruct (size o).
Qed.

Lemma merge_diffKey_empty_eq (l r : Obj) :
  (∀ k a b, l !! k = Some a → r !! k = Some b →
     noDifference a b (diff a b) = true → a = b) →
  merge diffKey l r = ∅ → l = r.
Proof.
  intros Heq Hm. apply map_eq. intros k.
  assert (Hk := f_equal (.!! k) Hm). cbn in Hk.
  rewrite lookup_merge_diffKey, lookup_empty in Hk.
  destruct (l !! k) as [a|] eqn:Hl, (r !! k) as [b|] eqn:Hr; cbn in Hk;
    try done.
  destruct (noDifference a b (diff a b)) eqn:Hnd; [|done].
  f_equal. by eapply Heq.
Qed.

(** When the objects that the two values hold at the same places are of
    one kind, a key that both sides own is skipped only when its two
    values are equal. *)
Lemma noDifference_eq a b :
  kindsAgree a b = true →
  noDifference a b (diff a b) = true → a = b.
Proof.
  revert b.
  induction a as [| |x|n|s|t|l IH|l IH] using value_nested_ind;
    intros b Hkinds.
  all: match goal with |- noDifference ?a ?b' _ = true → _ =>
         destruct (strictEq a b') eqn:Hse; [by intros _; apply strictEq_eq|] end.
  all: destruct b as [| |y|m|s'|t'|r|r]; try discriminate Hkinds.
  all: try solve
    [ rewrite diff_primitive, Hse by done; unfold noDifference;
      match goal with
      | |- context [isEmptyObject (VObj ?o)] =>
          by destruct (isEmptyObject (VObj o))
      | |- context [isEmptyObject (VArr ?o)] =>
          by destruct (isEmptyObject (VArr o))
      | _ => done
      end ].
  - (* two dates *)
    cbn. destruct (numberEq t t') eqn:Ht; [|done].
    intros _. by apply numberEq_eq in Ht as ->.
  - (* two plain objects *)
    rewrite (proj1 (diff_objects l r)). unfold noDifference at 1.
    intros H. apply andb_true_iff in H as [H _].
    apply andb_true_iff in H as [H _].
    apply isEmptyObject_inv in H as [H|[H|[? H]]]; try done.
    injection H as H. f_equal.
    apply (merge_diffKey_empty_eq l r); [|done].
    intros k a b Ha Hb. apply (IH _ _ Ha).
    by eapply kindsAgree_lookup.
  - (* two arrays *)
    rewrite (proj1 (proj2 (diff_objects l r))). unfold noDifference at 1.
    intros H. apply andb_true_iff in H as [H _].
    apply andb_true_iff in H as [H _].
    apply isEmptyObject_inv in H as [H|[H|[? H]]]; try done.
    injection H as H. f_equal.
    apply (merge_diffKey_empty_eq l r); [|done].
    intros k a b Ha Hb. apply (IH _ _ Ha).
    by eapply (kindsAgree_lookup l r).
Qed.

End DeepDiffFacts.
(** * The update hook *)

Section UpdateHookFacts.
Context {host : Host}.

Lemma computedDiff_object ev :
  computedDiff ev = VObj (merge diffKey (newEntity ev) (oldEntity ev)).
Proof. apply diff_objects. Qed.

Lemma isEmptyObj_object (d : Obj) : isEmptyObj (VObj d) = true ↔ d = ∅.
Proof.
  unfold isEmptyObj. cbn. rewrite negb_true_iff, negb_false_iff, Nat.eqb_eq.
  apply map_size_empty_iff.
Qed.

Lemma isEmptyObj_computedDiff ev :
  isEmptyObj (computedDiff ev) = true ↔ computedDiff ev = VObj ∅.
Proof.
  rewrite computedDiff_object, isEmptyObj_object. split; [by intros ->|].
  by intros [= ->].
Qed.

(** The hook is its test followed by lines 94 to 96. *)
Lemma beforeUpdate_unfold {World Row} self ev
    (module : HistoryModule World Row) (w : World) :
  beforeUpdate self ev module w =
    if negb (isEmptyObj (computedDiff ev))
    then writeHistory self (historyInput ev) module w
    else (Ok tt, w).
Proof.
  unfold beforeUpdate, writeHistory, configGetRepository.
  fold (newEntity ev) (oldEntity ev). fold (computedDiff ev).
  fold (historyInput ev).
  destruct (negb (isEmptyObj (computedDiff ev))); [|done].
  destruct (config module) as [cfg|]; [|done].
  destruct (getRepository cfg _) as [repo|e]; [|done]. cbn.
  destruct (create repo _) as [row|e]; [|done].
  by destruct (save repo row w).
Qed.

(** The two branches of [beforeUpdate]. *)
Lemma beforeUpdate_skip {World Row} self ev
    (module : HistoryModule World Row) (w : World) :
  computedDiff ev = VObj ∅ → beforeUpdate self ev module w = (Ok tt, w).
Proof.
  intros H%isEmptyObj_computedDiff. rewrite beforeUpdate_unfold. by rewrite H.
Qed.

Lemma beforeUpdate_write {World Row} self ev
    (module : HistoryModule World Row) (w : World) :
  computedDiff ev ≠ VObj ∅ →
  beforeUpdate self ev module w = writeHistory self (historyInput ev) module w.
Proof.
  intros H. rewrite beforeUpdate_unfold.
  destruct (isEmptyObj (computedDiff ev)) eqn:He; [|done].
  by apply isEmptyObj_computedDiff in He.
Qed.

(** When every call into the persistence layer returns, the write is the
    one [save]. *)
Lemma writeHistory_saves {World Row} self input
    (module : HistoryModule World Row) (w : World) cfg repo row :
  config module = Some cfg →
  getRepository cfg (ByName (historyEntityName self)) = Returned repo →
  create repo input = Returned row →
  writeHistory self input module w =
    (external (fst (save repo row w)), snd (save repo row w)).
Proof. unfold writeHistory. by intros -> -> ->. Qed.

Lemma writeHistory_recording self input es written :
  writeHistory self input (recordingModule es) written =
    (Ok tt, written ++ [ (ByName (historyEntityName self), input) ]).
Proof. reflexivity. Qed.

(** A key that both states hold with the same value is in the computed
    difference only if that value holds a [NaN]. *)
Lemma diffKey_same o :
  nanFree (default VUndef o) = true → diffKey o o = None.
Proof.
  destruct o as [a|]; cbn; [|done]. intros Hnan. by rewrite noDifference_same.
Qed.

(** The value that the difference holds for a key it contains. *)
Lemma diffKey_value (ol or : option value) v :
  diffKey ol or = Some v →
  let a := default VUndef ol in
  let b := default VUndef or in
  if DeepObjectDiff.isObject a && DeepObjectDiff.isObject b
  then v = deepDiff a b else v = b.
Proof.
  destruct ol as [a|], or as [b|]; cbn; try done.
  - destruct (DeepObjectDiff.noDifference a b _) eqn:Hnd; [done|].
    intros [= <-].
    destruct (DeepObjectDiff.isObject a && DeepObjectDiff.isObject b) eqn:Hob;
      [done|].
    rewrite diff_primitive in Hnd |- * by done.
    destruct (DeepObjectDiff.strictEq a b) eqn:Hse; [|done].
    apply strictEq_eq in Hse as ->.
    destruct b; try done; cbn in Hob; done.
  - intros [= <-]. by rewrite andb_false_r.
  - intros [= <-]. done.
Qed.

(** A key at which the two states differ, with objects of one kind
    wherever both hold an object, is in the computed difference. *)
Lemma diffKey_differ (ol or : option value) :
  ol ≠ or →
  kindsAgree (default VUndef ol) (default VUndef or) = true →
  is_Some (diffKey ol or).
Proof.
  destruct ol as [a|], or as [b|]; cbn; try done.
  intros Hne Hkinds.
  destruct (DeepObjectDiff.noDifference a b _) eqn:Hnd; [|done].
  destruct Hne. f_equal. by apply noDifference_eq.
Qed.

Lemma diff_from_empty (o : Obj) : deepDiff (VObj ∅) (VObj o) = VObj o.
Proof.
  unfold deepDiff. rewrite (proj1 (diff_objects _ _)). f_equal.
  apply map_eq. intros k.
  rewrite lookup_merge_diffKey, lookup_empty. by destruct (o !! k).
Qed.

End UpdateHookFacts.

(** ** C1, as the code has it *)

(** C1 (amended): the diff that [beforeUpdate] records is
    [deepDiff(incoming, previous)], an object [d] that holds the previous
    side.  When [d] has no key nothing is written; otherwise the one row
    written carries [d].  A key at which the two states agree is in [d]
    exactly when its value holds a [NaN]; a key at which the two states
    differ is in [d], provided that wherever both values hold an object
    the two objects are of one kind (two plain objects, two arrays, two
    dates).  A key whose two values are not both
    objects is mapped to its previous value ([undefined] when the previous
    state lacks it), a key whose two values are objects to their nested
    difference.  For previous [{a: 1, b: 2}] and incoming [{a: 1, b: 3}]
    the row written has the diff [{b: 2}].  On any persistence layer the
    row handed to [create] and [save] is the same one. *)
Theorem beforeUpdate_diff_holds_previous_values {host : Host} :
  (∀ ev : UpdateEvent.t, ∃ d : Obj,
     computedDiff ev = VObj d ∧
     (∀ (self : MyEntitySubscriber) es written,
        (d = ∅ →
         beforeUpdate self ev (recordingModule es) written =
           (Ok tt, written)) ∧
        (d ≠ ∅ →
         beforeUpdate self ev (recordingModule es) written =
           (Ok tt,
            written ++
              [ (ByName (historyEntityName self),
                 {| input_origin := get (oldEntity ev) "id";
                    input_diff := VObj d;
                    input_historyDetails :=
                      get (UpdateEvent.data (UpdateEvent.queryRunner ev))
                          "historyDetails" |}) ]))) ∧
     (d ≠ ∅ →
      ∀ World Row (self : MyEntitySubscriber)
        (module : HistoryModule World Row) (w : World),
        beforeUpdate self ev module w =
          writeHistory self
            {| input_origin := get (oldEntity ev) "id";
               input_diff := VObj d;
               input_historyDetails :=
                 get (UpdateEvent.data (UpdateEvent.queryRunner ev))
                     "historyDetails" |} module w) ∧
     (∀ k, newEntity ev !! k = oldEntity ev !! k →
        (is_Some (d !! k) ↔ nanFree (get (newEntity ev) k) = false)) ∧
     (∀ k, newEntity ev !! k ≠ oldEntity ev !! k →
        kindsAgree (get (newEntity ev) k) (get (oldEntity ev) k) = true →
        is_Some (d !! k)) ∧
     (∀ k v, d !! k = Some v →
        let a := get (newEntity ev) k in
        let b := get (oldEntity ev) k in
        if DeepObjectDiff.isObject a && DeepObjectDiff.isObject b
        then v = deepDiff a b else v = b)) ∧
  beforeUpdate user_subscriber example_event (recordingModule []) [] =
    (Ok tt, [ (ByName "user_history",
               {| input_origin := VUndef;
                  input_diff := VObj {[ "b" := VNum 2 ]};
                  input_historyDetails := VUndef |}) ]).
Proof.
  split.
  2: { vm_cast_no_check
         (eq_refl (beforeUpdate user_subscriber example_event
                     (recordingModule []) [])). }
  intros ev. exists (merge diffKey (newEntity ev) (oldEntity ev)).
  split; [apply computedDiff_object|].
  split; [|split; [|split; [|split]]].
  - intros self es written. split; intros Hd.
    + apply beforeUpdate_skip. by rewrite computedDiff_object, Hd.
    + rewrite beforeUpdate_write.
      * rewrite writeHistory_recording. unfold historyInput.
        by rewrite computedDiff_object.
      * rewrite computedDiff_object. by intros [= ?].
  - intros Hd World Row self module w. rewrite beforeUpdate_write.
    + unfold historyInput. by rewrite computedDiff_object.
    + rewrite computedDiff_object. by intros [= ?].
  - intros k Heq. rewrite lookup_merge_diffKey, <-Heq. unfold get.
    destruct (nanFree (default VUndef (newEntity ev !! k))) eqn:Hnan.
    + rewrite diffKey_same by done. split; [by intros [? ?]|done].
    + split; [done|]. intros _.
      destruct (newEntity ev !! k) as [a|]; [|done]. cbn in *.
      by rewrite noDifference_NaN.
  - intros k Hne Hkinds. rewrite lookup_merge_diffKey.
    by apply diffKey_differ.
  - intros k v Hv. rewrite lookup_merge_diffKey in Hv.
    by apply diffKey_value in Hv.
Qed.

(** The example event: [b] differs and is in the recorded diff, [a] does
    not and is not. *)
Lemma beforeUpdate_diff_holds_previous_values_witness :
  ∃ d : Obj,
    computedDiff (host := asciiHost) example_event = VObj d ∧
    is_Some (d !! "b") ∧ d !! "a" = None.
Proof.
  destruct (proj1 (beforeUpdate_diff_holds_previous_values (host := asciiHost))
              example_event)
    as (d & Hd & _ & _ & Honly & Hall & _).
  exists d. split; [exact Hd|]. split.
  - apply Hall; [|reflexivity].
    vm_compute. discriminate.
  - destruct (d !! "a") as [v|] eqn:Ha; [|reflexivity].
    exfalso.
    assert (nanFree (get (newEntity example_event) "a") = false) as Hnan.
    { apply (Honly "a"); [reflexivity|]. by rewrite Ha. }
    vm_compute in Hnan. discriminate Hnan.
Defined.

(** C1, as stated, fails on its own example: what is recorded for previous
    [{a: 1, b: 2}] and incoming [{a: 1, b: 3}] is [{b: 2}], the previous
    value of [b], and not [{b: 3}]. *)
Lemma beforeUpdate_diff_is_not_incoming_value :
  beforeUpdate (host := asciiHost) user_subscriber example_event
      (recordingModule []) [] =
    (Ok tt, [ (ByName "user_history",
               {| input_origin := VUndef;
                  input_diff := VObj {[ "b" := VNum 2 ]};
                  input_historyDetails := VUndef |}) ]) ∧
  input_diff (historyInput (host := asciiHost) example_event)
    ≠ VObj {[ "b" := VNum 3 ]}.
Proof.
  split.
  - vm_cast_no_check
      (eq_refl (beforeUpdate (host := asciiHost) user_subscriber example_event
                  (recordingModule []) [])).
  - intros H.
    apply (f_equal (λ v, match v with VObj o => o !! "b" | _ => None end)) in H.
    vm_compute in H. discriminate H.
Qed.

(** The two qualifications of the amended C1 are needed.  An empty object
    replaced by an empty array is a change that no key of the diff shows:
    nothing is written. *)
Example beforeUpdate_misses_array_for_object :
  newEntity example_array_event ≠ oldEntity example_array_event ∧
  beforeUpdate (host := asciiHost) user_subscriber example_array_event
      (recordingModule []) [] = (Ok tt, []).
Proof.
  split.
  - intros H. apply (f_equal (.!! "tags")) in H. vm_compute in H.
    discriminate H.
  - vm_cast_no_check
      (eq_refl (beforeUpdate (host := asciiHost) user_subscriber
                  example_array_event (recordingModule []) [])).
Qed.

(** ** C3, as the code has it *)

(** C3 (amended): whenever the computed diff has no key, [beforeUpdate]
    returns normally without touching the persistence layer, whatever that
    layer is and whether or not the module was set up.  When the incoming
    state equals the previous state, the computed diff has no key exactly
    when the state holds no [NaN]. *)
Theorem beforeUpdate_unchanged_writes_nothing {host : Host} {World Row}
    (self : MyEntitySubscriber) (ev : UpdateEvent.t)
    (module : HistoryModule World Row) (w : World) :
  (computedDiff ev = VObj ∅ → beforeUpdate self ev module w = (Ok tt, w)) ∧
  (newEntity ev = oldEntity ev →
   (computedDiff ev = VObj ∅ ↔ nanFree (VObj (newEntity ev)) = true) ∧
   (nanFree (VObj (newEntity ev)) = true →
    beforeUpdate self ev module w = (Ok tt, w))).
Proof.
  split; [apply beforeUpdate_skip|].
  intros Heq.
  assert (nanFree (VObj (newEntity ev)) = true → computedDiff ev = VObj ∅)
    as Hd.
  { intros Hnan. unfold computedDiff. rewrite <-Heq. by apply diff_same. }
  split; [split; [|done]|].
  - unfold computedDiff. rewrite <-Heq. intros Hempty.
    destruct (nanFree (VObj (newEntity ev))) eqn:Hnan; [done|].
    apply (noDifference_NaN (VObj (newEntity ev))) in Hnan.
    unfold deepDiff in Hempty. rewrite Hempty in Hnan.
    unfold DeepObjectDiff.noDifference in Hnan.
    rewrite isEmptyObject_empty in Hnan. cbn in Hnan.
    by destruct (size (newEntity ev) =? 0)%nat.
  - intros Hnan. by apply beforeUpdate_skip, Hd.
Qed.

(** An unchanged record on a layer that rejects every write, and on a
    module that was never set up: nothing is written and nothing fails. *)
Lemma beforeUpdate_unchanged_writes_nothing_witness :
  (computedDiff (host := asciiHost) example_noop_event = VObj ∅ ∧
   beforeUpdate (host := asciiHost) user_subscriber example_noop_event
       (failingModule []) [] = (Ok tt, [])) ∧
  beforeUpdate (host := asciiHost) user_subscriber example_array_event
      (initialModule (World := list Recorded) (Row := HistoryInput)) [] =
    (Ok tt, []).
Proof.
  split.
  - destruct (proj2 (beforeUpdate_unchanged_writes_nothing (host := asciiHost)
                user_subscriber example_noop_event (failingModule []) [])
                eq_refl) as [Hiff Hskip].
    assert (nanFree (VObj (newEntity example_noop_event)) = true) as Hnan.
    { vm_compute. reflexivity. }
    split; [exact (proj2 Hiff Hnan) | exact (Hskip Hnan)].
  - apply (proj1 (beforeUpdate_unchanged_writes_nothing (host := asciiHost)
             user_subscriber example_array_event initialModule [])).
    vm_cast_no_check
      (eq_refl (computedDiff (host := asciiHost) example_array_event)).
Defined.

(** C3, as stated, fails for a record with a [NaN] field: the incoming
    state equals the previous state, and yet a row is written, its diff
    holding the unchanged field. *)
Lemma beforeUpdate_records_unchanged_NaN :
  newEntity example_nan_event = oldEntity example_nan_event ∧
  beforeUpdate (host := asciiHost) user_subscriber example_nan_event
      (recordingModule []) [] =
    (Ok tt, [ (ByName "user_history",
               {| input_origin := VUndef;
                  input_diff := VObj {[ "a" := VNum NaN ]};
                  input_historyDetails := VUndef |}) ]).
Proof.
  split; [reflexivity|].
  vm_cast_no_check
    (eq_refl (beforeUpdate (host := asciiHost) user_subscriber
                example_nan_event (recordingModule []) [])).
Qed.

(** ** C4 *)

(** C4: when the computed diff has a key, [beforeUpdate] is the write of
    one row, [{origin, diff, historyDetails}]: [origin] is the identifier
    of the previous state, [diff] the computed diff and [historyDetails]
    the annotation found in the operation's data, [undefined] when there
    is none.  The row is created and saved once, on the repository of the
    subscriber's history entity; when the persistence layer hands out the
    repository and creates the instance, the hook is exactly that one
    [save].  On the recording layer this is exactly one more row. *)
Theorem beforeUpdate_writes_one_entry {host : Host} {World Row}
    (self : MyEntitySubscriber) (ev : UpdateEvent.t)
    (module : HistoryModule World Row) (w : World) :
  computedDiff ev ≠ VObj ∅ →
  let input :=
    {| input_origin := get (oldEntity ev) "id";
       input_diff := computedDiff ev;
       input_historyDetails :=
         default VUndef (UpdateEvent.data (UpdateEvent.queryRunner ev)
                           !! "historyDetails") |} in
  beforeUpdate self ev module w = writeHistory self input module w ∧
  (∀ cfg repo row,
     config module = Some cfg →
     getRepository cfg (ByName (historyEntityName self)) = Returned repo →
     create repo input = Returned row →
     beforeUpdate self ev module w =
       (external (fst (save repo row w)), snd (save repo row w))) ∧
  ∀ es written,
    beforeUpdate self ev (recordingModule es) written =
      (Ok tt, written ++ [ (ByName (historyEntityName self), input) ]).
Proof.
  intros Hne. cbn zeta. split; [|split].
  - by rewrite beforeUpdate_write.
  - intros cfg repo row Hcfg Hrepo Hrow. rewrite beforeUpdate_write by done.
    by eapply writeHistory_saves.
  - intros es written. by rewrite beforeUpdate_write.
Qed.

(** One update on the empty recording layer leaves exactly one row. *)
Lemma beforeUpdate_writes_one_entry_witness :
  beforeUpdate (host := asciiHost) user_subscriber example_absent_event
      (recordingModule []) [] =
    (Ok tt, [ (ByName "user_history",
               {| input_origin := VNum 7;
                  input_diff :=
                    VObj {[ "id" := VNum 7; "firstName" := VStr "John" ]};
                  input_historyDetails := VUndef |}) ]).
Proof.
  assert (computedDiff (host := asciiHost) example_absent_event ≠ VObj ∅)
    as Hne.
  { intros H.
    apply (f_equal (λ v, match v with VObj o => o !! "id" | _ => None end))
      in H.
    vm_compute in H. discriminate H. }
  destruct (beforeUpdate_writes_one_entry (host := asciiHost) user_subscriber
              example_absent_event (recordingModule []) [] Hne)
    as (_ & _ & Hrec).
  rewrite (Hrec [] []).
  vm_cast_no_check
    (eq_refl (Ok tt,
       [ (ByName (historyEntityName user_subscriber),
          {| input_origin := get (oldEntity example_absent_event) "id";
             input_diff := computedDiff (host := asciiHost) example_absent_event;
             input_historyDetails :=
               default VUndef
                 (UpdateEvent.data (UpdateEvent.queryRunner example_absent_event)
                    !! "historyDetails") |}) ])).
Defined.

(** ** C7 *)

(** C7: when the incoming state is missing or has no field, the diff is
    computed against the empty object [{}] and is the whole previous state,
    every field with its value; when the previous state has a field, the
    hook is the write of the row that carries that diff, one [save] when
    the persistence layer hands out the repository and creates the
    instance, one more row on the recording layer. *)
Theorem beforeUpdate_missing_incoming_records_previous {host : Host}
    (ev : UpdateEvent.t) :
  UpdateEvent.entity ev = None ∨ UpdateEvent.entity ev = Some ∅ →
  computedDiff ev = deepDiff (VObj ∅) (VObj (oldEntity ev)) ∧
  computedDiff ev = VObj (oldEntity ev) ∧
  ∀ World Row (self : MyEntitySubscriber)
    (module : HistoryModule World Row) (w : World),
    oldEntity ev ≠ ∅ →
    let input :=
      {| input_origin := get (oldEntity ev) "id";
         input_diff := VObj (oldEntity ev);
         input_historyDetails :=
           get (UpdateEvent.data (UpdateEvent.queryRunner ev))
               "historyDetails" |} in
    beforeUpdate self ev module w = writeHistory self input module w ∧
    (∀ cfg repo row,
       config module = Some cfg →
       getRepository cfg (ByName (historyEntityName self)) = Returned repo →
       create repo input = Returned row →
       beforeUpdate self ev module w =
         (external (fst (save repo row w)), snd (save repo row w))) ∧
    ∀ es written,
      beforeUpdate self ev (recordingModule es) written =
        (Ok tt, written ++ [ (ByName (historyEntityName self), input) ]).
Proof.
  intros Hent.
  assert (newEntity ev = ∅) as Hnew.
  { unfold newEntity. by destruct Hent as [-> | ->]. }
  assert (computedDiff ev = VObj (oldEntity ev)) as Hd.
  { unfold computedDiff. rewrite Hnew. apply diff_from_empty. }
  split; [|split; [done|]].
  - unfold computedDiff. by rewrite Hnew.
  - intros World Row self module w Hne. cbn zeta.
    assert (computedDiff ev ≠ VObj ∅) as Hne'.
    { rewrite Hd. by intros [= ?]. }
    assert (historyInput ev =
      {| input_origin := get (oldEntity ev) "id";
         input_diff := VObj (oldEntity ev);
         input_historyDetails :=
           get (UpdateEvent.data (UpdateEvent.queryRunner ev))
               "historyDetails" |}) as Hin.
    { unfold historyInput. by rewrite Hd. }
    split; [|split].
    + by rewrite beforeUpdate_write, Hin.
    + intros cfg repo row Hcfg Hrepo Hrow.
      rewrite beforeUpdate_write, Hin by done. by eapply writeHistory_saves.
    + intros es written. by rewrite beforeUpdate_write, Hin.
Qed.

(** An update without incoming state records the whole stored record. *)
Lemma beforeUpdate_missing_incoming_records_previous_witness :
  computedDiff (host := asciiHost) example_absent_event =
    VObj {[ "id" := VNum 7; "firstName" := VStr "John" ]} ∧
  beforeUpdate (host := asciiHost) user_subscriber example_absent_event
      (recordingModule []) [] =
    (Ok tt, [ (ByName "user_history",
               {| input_origin := VNum 7;
                  input_diff :=
                    VObj {[ "id" := VNum 7; "firstName" := VStr "John" ]};
                  input_historyDetails := VUndef |}) ]).
Proof.
  destruct (beforeUpdate_missing_incoming_records_previous (host := asciiHost)
              example_absent_event (or_introl eq_refl)) as (_ & Hd & Hsave).
  split; [exact Hd|].
  destruct (Hsave _ _ user_subscriber (recordingModule []) []) as (_ & _ & Hrec).
  - intros H. apply (f_equal (.!! "id")) in H. vm_compute in H.
    discriminate H.
  - rewrite (Hrec [] []). reflexivity.
Defined.
(** * [hydrate] *)

(** The example of the specification (section 8, property 5). *)
Example hydrate_john :
  hydrate john john_history =
    [ {[ "originId" := VNum 1; "id" := VNum 1; "firstName" := VStr "Peter";
         "lastName" := VStr "Wong"; "historyDetails" := VNull;
         "createdAt" := VDate 100 ]};
      {[ "originId" := VNum 1; "id" := VNum 2; "firstName" := VStr "John";
         "lastName" := VStr "Stanbridge"; "historyDetails" := VNull;
         "createdAt" := VDate 200 ]} ].
Proof. vm_cast_no_check (eq_refl (hydrate john john_history)). Qed.

Lemma length_mapHistory pivot history :
  length (mapHistory pivot history) = length history.
Proof.
  revert pivot. induction history as [|h rest IH]; intros pivot; cbn; [done|].
  by rewrite IH.
Qed.

(** The callback's running [pivot] computes, at every position, the fold
    over the entries up to that position. *)
Lemma mapHistory_is_fold pivot history :
  mapHistory pivot history = spec_hydrate_from pivot history.
Proof.
  unfold spec_hydrate_from. revert pivot.
  induction history as [|h rest IH]; intros pivot; [done|].
  cbn [mapHistory length seq map]. f_equal.
  rewrite IH, <-fmap_S_seq.
  change (map ?f (S <$> ?l)) with (f <$> (S <$> l)).
  rewrite <-list_fmap_compose. apply list_fmap_ext.
  intros i x _. reflexivity.
Qed.

(** [Object.assign({ originId: current.id }, current)] *)
Lemma assign_originId (current : Obj) :
  assign {[ "originId" := get current "id" ]} current =
    if decide (is_Some (current !! "originId")) then current
    else spec_start current.
Proof.
  unfold assign, spec_start. apply map_eq. intros k.
  destruct (decide (k = "originId")) as [->|Hk].
  - case_decide as Hc.
    + by apply lookup_union_l'.
    + rewrite lookup_insert_eq, lookup_union_r, lookup_singleton_eq; [done|].
      by apply eq_None_not_Some.
  - rewrite lookup_union_l by by rewrite lookup_singleton_ne.
    case_decide; [done|]. by rewrite lookup_insert_ne.
Qed.

(** ** C2, as the code has it *)

(** C2 (amended): [hydrate] returns one element per entry, in order, and
    element [i] is the fold of the entries [history[0..i]] over the start
    pivot, each entry overlaying its [diff] and then overriding [id],
    [historyDetails] and [createdAt].  The start pivot is
    [{ originId: current.id }] overwritten by the fields of [current]: it
    is [current] augmented with [originId = current.id] when [current] has
    no [originId] of its own, and [current] unchanged when it has one.  An
    empty [history] yields an empty output. *)
Theorem hydrate_is_fold (current : Obj) (history : list History) :
  let start :=
    if decide (is_Some (current !! "originId")) then current
    else spec_start current in
  length (hydrate current history) = length history ∧
  hydrate current history = spec_hydrate_from start history ∧
  (∀ i h, history !! i = Some h →
     hydrate current history !! i =
       Some (fold_left spec_overlay (take (S i) history) start)) ∧
  (current !! "originId" = None →
     hydrate current history = spec_hydrate current history) ∧
  hydrate current [] = [].
Proof.
  cbn zeta.
  assert (hydrate current history =
          spec_hydrate_from
            (if decide (is_Some (current !! "originId")) then current
             else spec_start current) history) as Hfold.
  { unfold hydrate. by rewrite assign_originId, mapHistory_is_fold. }
  split; [apply length_mapHistory|]. split; [exact Hfold|]. split; [|split].
  - intros i h Hi. rewrite Hfold. unfold spec_hydrate_from.
    rewrite list_lookup_fmap, lookup_seq_lt; [done|].
    by eapply lookup_lt_Some.
  - intros Hnone. rewrite Hfold. case_decide as Hc; [|done].
    rewrite Hnone in Hc. by destruct Hc.
  - reflexivity.
Qed.

(** John has no [originId] of his own: the output is the fold of the
    specification. *)
Lemma hydrate_is_fold_witness :
  hydrate john john_history = spec_hydrate john john_history ∧
  hydrate john john_history !! 1%nat =
    Some (fold_left spec_overlay john_history (spec_start john)).
Proof.
  destruct (hydrate_is_fold john john_history) as (_ & _ & Hi & Hs & _).
  split.
  - apply Hs. reflexivity.
  - apply (Hi 1%nat (mkHistory 2 VUndef
      {[ "firstName" := VStr "John"; "lastName" := VStr "Stanbridge" ]}
      VNull 200)).
    reflexivity.
Defined.

(** C2, as stated, fails for a record that has an [originId] field: the
    output keeps that field instead of [current.id]. *)
Lemma hydrate_keeps_own_originId :
  hydrate rehydrated rehydrated_history =
    [ {[ "originId" := VNum 7; "id" := VNum 5; "historyDetails" := VNull;
         "createdAt" := VDate 100 ]} ] ∧
  spec_hydrate rehydrated rehydrated_history =
    [ {[ "originId" := VNum 1; "id" := VNum 5; "historyDetails" := VNull;
         "createdAt" := VDate 100 ]} ] ∧
  hydrate rehydrated rehydrated_history ≠
    spec_hydrate rehydrated rehydrated_history.
Proof.
  assert (hydrate rehydrated rehydrated_history =
    [ {[ "originId" := VNum 7; "id" := VNum 5; "historyDetails" := VNull;
         "createdAt" := VDate 100 ]} ]) as H1.
  { vm_cast_no_check (eq_refl (hydrate rehydrated rehydrated_history)). }
  assert (spec_hydrate rehydrated rehydrated_history =
    [ {[ "originId" := VNum 1; "id" := VNum 5; "historyDetails" := VNull;
         "createdAt" := VDate 100 ]} ]) as H2.
  { vm_cast_no_check (eq_refl (spec_hydrate rehydrated rehydrated_history)). }
  split; [exact H1|]. split; [exact H2|].
  rewrite H1, H2. intros H.
  apply (f_equal (λ l : list Obj, l !! 0%nat ≫= (.!! "originId"))) in H.
  vm_compute in H. discriminate H.
Qed.

(** ** C9 *)

Lemma nextPivot_own_fields pivot h :
  nextPivot pivot h !! "id" = Some (VNum (id h)) ∧
  nextPivot pivot h !! "historyDetails" = Some (historyDetails h) ∧
  nextPivot pivot h !! "createdAt" = Some (VDate (createdAt h)).
Proof.
  unfold nextPivot. repeat split.
  - rewrite !lookup_insert_ne by done. apply lookup_insert_eq.
  - rewrite lookup_insert_ne by done. apply lookup_insert_eq.
  - apply lookup_insert_eq.
Qed.

(** C9: every output element has the [id], [historyDetails] and
    [createdAt] of its own entry, whatever the entry's [diff] says about
    those keys. *)
Theorem hydrate_entry_fields_win (current : Obj) (history : list History) :
  Forall2 (λ h out,
      out !! "id" = Some (VNum (id h)) ∧
      out !! "historyDetails" = Some (historyDetails h) ∧
      out !! "createdAt" = Some (VDate (createdAt h)))
    history (hydrate current history) ∧
  hydrate john shadowing_history =
    [ {[ "originId" := VNum 1; "id" := VNum 3; "firstName" := VStr "Peter";
         "lastName" := VStr "Wong"; "historyDetails" := VNull;
         "createdAt" := VDate 100 ]} ].
Proof.
  split.
  - unfold hydrate. generalize (assign {[ "originId" := get current "id" ]} current).
    induction history as [|h rest IH]; intros pivot; cbn [mapHistory];
      constructor; [apply nextPivot_own_fields | apply IH].
  - vm_cast_no_check (eq_refl (hydrate john shadowing_history)).
Qed.

(** ** [hydrate] on the store *)

Lemma readObject_Some s l props :
  Store.readObject s l = Some props ↔ s !! l = Some (Store.ObjectCell props).
Proof.
  unfold Store.readObject, Store.loadObject.
  destruct (s !! l) as [[]|]; cbn; naive_solver.
Qed.

Lemma loadObject_read s l props :
  Store.readObject s l = Some props → Store.loadObject l s = Some (props, s).
Proof. intros H%readObject_Some. unfold Store.loadObject. by rewrite H. Qed.

Lemma readHistory_Some s l h :
  Store.readHistory s l = Some h ↔
  ∃ d, s !! l = Some (Store.HistoryCell (id h) (origin h) d
                        (historyDetails h) (createdAt h)) ∧
       s !! d = Some (Store.ObjectCell (diff h)).
Proof.
  unfold Store.readHistory, Store.loadHistory. split.
  - destruct (s !! l) as [[| i o d hd ca |]|] eqn:Hl; cbn; try done.
    destruct (s !! d) as [[]|] eqn:Hd; cbn; try done.
    intros [= <-]. cbn. eauto.
  - intros (d & -> & ->). by destruct h.
Qed.

Lemma loadHistory_read s l h :
  Store.readHistory s l = Some h → Store.loadHistory l s = Some (h, s).
Proof.
  unfold Store.readHistory.
  destruct (Store.loadHistory l s) as [[h' s']|] eqn:Hl; [|done].
  cbn. intros [= ->]. f_equal. f_equal.
  unfold Store.loadHistory in Hl. repeat case_match; naive_solver.
Qed.

(** Reads of existing cells survive allocation. *)
Lemma readObject_app s new l props :
  Store.readObject s l = Some props →
  Store.readObject (s ++ new) l = Some props.
Proof. rewrite !readObject_Some. apply lookup_app_l_Some. Qed.

Lemma readHistory_app s new l h :
  Store.readHistory s l = Some h → Store.readHistory (s ++ new) l = Some h.
Proof.
  rewrite !readHistory_Some. intros (d & Hl & Hd). exists d.
  split; by apply lookup_app_l_Some.
Qed.

Lemma mapM_readObject_app s new ls objs :
  mapM (Store.readObject s) ls = Some objs →
  mapM (Store.readObject (s ++ new)) ls = Some objs.
Proof.
  rewrite !mapM_Some. intros H. eapply Forall2_impl; [exact H|].
  intros. by apply readObject_app.
Qed.

Lemma mapM_readHistory_app s new ls hs :
  mapM (Store.readHistory s) ls = Some hs →
  mapM (Store.readHistory (s ++ new)) ls = Some hs.
Proof.
  rewrite !mapM_Some. intros H. eapply Forall2_impl; [exact H|].
  intros. by apply readHistory_app.
Qed.

Lemma readHistories_app s new l hs :
  Store.readHistories s l = Some hs →
  Store.readHistories (s ++ new) l = Some hs.
Proof.
  unfold Store.readHistories, Store.loadArray.
  destruct (s !! l) as [[| |items]|] eqn:Hl; cbn; try done.
  rewrite (lookup_app_l_Some _ _ _ _ Hl). cbn.
  apply mapM_readHistory_app.
Qed.

Lemma readObjects_app s new l objs :
  Store.readObjects s l = Some objs →
  Store.readObjects (s ++ new) l = Some objs.
Proof.
  unfold Store.readObjects, Store.loadArray.
  destruct (s !! l) as [[| |items]|] eqn:Hl; cbn; try done.
  rewrite (lookup_app_l_Some _ _ _ _ Hl). cbn.
  apply mapM_readObject_app.
Qed.

Lemma readObject_alloc s props :
  Store.readObject (s ++ [Store.ObjectCell props]) (length s) = Some props.
Proof. apply readObject_Some. by apply list_lookup_middle. Qed.

Lemma op_bind_Some {A B} (f : A → Store.Op B) (x : Store.Op A) s a s' :
  x s = Some (a, s') → (x ≫= f) s = f a s'.
Proof. intros H. unfold mbind, Store.op_bind. by rewrite H. Qed.

(** [Object.assign] into a target that was just allocated. *)
Lemma objectAssign_fresh s source src tgt :
  Store.readObject s source = Some src →
  Store.objectAssign (length s) source (s ++ [Store.ObjectCell tgt]) =
    Some (length s, s ++ [Store.ObjectCell (assign tgt src)]).
Proof.
  intros Hsrc. unfold Store.objectAssign.
  rewrite (op_bind_Some _ _ _ src (s ++ [Store.ObjectCell tgt]))
    by by apply loadObject_read, readObject_app.
  rewrite (op_bind_Some _ _ _ tgt (s ++ [Store.ObjectCell tgt]))
    by apply loadObject_read, readObject_alloc.
  rewrite (op_bind_Some _ _ _ tt (s ++ [Store.ObjectCell (assign tgt src)])).
  - reflexivity.
  - unfold Store.write. rewrite length_app. cbn [length].
    case_decide; [|lia].
    by rewrite insert_app_r_alt, Nat.sub_diag by lia.
Qed.

(** The callback of [map]: it only allocates, and what it allocates are
    the pivots of the pure fold. *)
Lemma mapHistory_store items : ∀ hs pivot p s,
  Store.readObject s pivot = Some p →
  mapM (Store.readHistory s) items = Some hs →
  ∃ out new,
    Store.mapHistory pivot items s = Some (out, s ++ new) ∧
    mapM (Store.readObject (s ++ new)) out = Some (mapHistory p hs).
Proof.
  induction items as [|entry rest IH]; intros hs pivot p s Hp Hhs.
  - injection Hhs as <-. exists [], []. by rewrite app_nil_r.
  - apply mapM_Some in Hhs.
    apply Forall2_cons_inv_l in Hhs as (h & hs' & Hh & Hrest & ->).
    set (fresh := Store.ObjectCell (nextPivot p h)).
    destruct (IH hs' (length s) (nextPivot p h) (s ++ [fresh]))
      as (out & new & Hrun & Hout).
    { apply readObject_alloc. }
    { apply mapM_readHistory_app. by apply mapM_Some. }
    exists (length s :: out), ([fresh] ++ new). split.
    + cbn [Store.mapHistory].
      rewrite (op_bind_Some _ _ _ h s) by by apply loadHistory_read.
      rewrite (op_bind_Some _ _ _ p s) by by apply loadObject_read.
      rewrite (op_bind_Some _ _ _ (length s) (s ++ [fresh])) by done.
      rewrite (op_bind_Some _ _ _ _ _ Hrun).
      by rewrite <-app_assoc.
    + rewrite app_assoc. cbn [mapHistory]. apply mapM_Some. constructor.
      * apply readObject_app, readObject_alloc.
      * by apply mapM_Some.
Qed.

(** One call: it succeeds on well-formed arguments, only appends to the
    store, and the array it returns holds the result of the pure
    function. *)
Lemma hydrate_store s current history c hs :
  Store.readObject s current = Some c →
  Store.readHistories s history = Some hs →
  ∃ out new,
    Store.hydrate current history s = Some (out, s ++ new) ∧
    Store.readObjects (s ++ new) out = Some (hydrate c hs).
Proof.
  intros Hc Hhs.
  set (start := Store.ObjectCell (assign {[ "originId" := get c "id" ]} c)).
  unfold Store.readHistories, Store.loadArray in Hhs.
  destruct (s !! history) as [[| |items]|] eqn:Hitems; cbn in Hhs; try done.
  destruct (mapHistory_store items hs (length s)
              (assign {[ "originId" := get c "id" ]} c) (s ++ [start]))
    as (out & new & Hrun & Hout).
  { apply readObject_alloc. }
  { by apply mapM_readHistory_app. }
  exists (length ((s ++ [start]) ++ new)),
         ([start] ++ new ++ [Store.ArrayCell out]).
  split.
  - unfold Store.hydrate.
    rewrite (op_bind_Some _ _ _ c s) by by apply loadObject_read.
    rewrite (op_bind_Some _ _ _ (length s)
               (s ++ [Store.ObjectCell {[ "originId" := get c "id" ]}]))
      by done.
    rewrite (op_bind_Some _ _ _ (length s) (s ++ [start]))
      by by apply objectAssign_fresh.
    rewrite (op_bind_Some _ _ _ items (s ++ [start])).
    2:{ unfold Store.loadArray.
        by rewrite (lookup_app_l_Some _ _ _ _ Hitems). }
    rewrite (op_bind_Some _ _ _ _ _ Hrun). unfold Store.alloc.
    f_equal. f_equal. by rewrite <-!app_assoc.
  - unfold Store.readObjects, Store.loadArray.
    replace (s ++ [start] ++ new ++ [Store.ArrayCell out])
      with (((s ++ [start]) ++ new) ++ [Store.ArrayCell out])
      by by rewrite <-!app_assoc.
    rewrite (list_lookup_middle _ [] _ _ eq_refl). cbn.
    by apply mapM_readObject_app.
Qed.

(** C6: on a store where [current] is an object and [history] an array of
    entries, [hydrate] returns, and a second call on the store that the
    first one left returns as well; both only append cells to the store,
    so that every cell that existed before ([current], [history], its
    entries, their diffs and everything else) is unchanged; and the two
    arrays returned hold the same objects, field by field, namely the
    result of the pure function on the data of the arguments. *)
Theorem hydrate_is_deterministic_and_pure
    (s : Store.store) (current history : Store.loc)
    (c : Obj) (hs : list History) :
  Store.readObject s current = Some c →
  Store.readHistories s history = Some hs →
  ∃ out1 new1 out2 new2,
    Store.hydrate current history s = Some (out1, s ++ new1) ∧
    Store.hydrate current history (s ++ new1) =
      Some (out2, (s ++ new1) ++ new2) ∧
    Store.readObjects (s ++ new1) out1 = Some (hydrate c hs) ∧
    Store.readObjects ((s ++ new1) ++ new2) out2 = Some (hydrate c hs) ∧
    Store.readObjects ((s ++ new1) ++ new2) out1 = Some (hydrate c hs) ∧
    Store.readObject ((s ++ new1) ++ new2) current = Some c ∧
    Store.readHistories ((s ++ new1) ++ new2) history = Some hs ∧
    ∀ l cell, s !! l = Some cell →
      (s ++ new1) !! l = Some cell ∧ ((s ++ new1) ++ new2) !! l = Some cell.
Proof.
  intros Hc Hhs.
  destruct (hydrate_store s current history c hs Hc Hhs)
    as (out1 & new1 & Hrun1 & Hout1).
  destruct (hydrate_store (s ++ new1) current history c hs)
    as (out2 & new2 & Hrun2 & Hout2).
  { by apply readObject_app. }
  { by apply readHistories_app. }
  exists out1, new1, out2, new2. repeat split; try done.
  - by apply readObjects_app.
  - by do 2 apply readObject_app.
  - by do 2 apply readHistories_app.
  - by apply lookup_app_l_Some.
  - by do 2 apply lookup_app_l_Some.
Qed.

(** Two calls on the example store. *)
Lemma hydrate_is_deterministic_and_pure_witness :
  ∃ out1 new1 out2 new2,
    Store.hydrate 0%nat 3%nat example_store =
      Some (out1, example_store ++ new1) ∧
    Store.hydrate 0%nat 3%nat (example_store ++ new1) =
      Some (out2, (example_store ++ new1) ++ new2) ∧
    Store.readObjects (example_store ++ new1) out1 =
      Some (hydrate john [mkHistory 1 VUndef {[ "firstName" := VStr "Peter" ]} VNull 100]) ∧
    Store.readObjects ((example_store ++ new1) ++ new2) out2 =
      Some (hydrate john [mkHistory 1 VUndef {[ "firstName" := VStr "Peter" ]} VNull 100]) ∧
    Store.readObjects ((example_store ++ new1) ++ new2) out1 =
      Some (hydrate john [mkHistory 1 VUndef {[ "firstName" := VStr "Peter" ]} VNull 100]) ∧
    Store.readObject ((example_store ++ new1) ++ new2) 0%nat = Some john ∧
    Store.readHistories ((example_store ++ new1) ++ new2) 3%nat =
      Some [mkHistory 1 VUndef {[ "firstName" := VStr "Peter" ]} VNull 100] ∧
    ∀ l cell, example_store !! l = Some cell →
      (example_store ++ new1) !! l = Some cell ∧
      ((example_store ++ new1) ++ new2) !! l = Some cell.
Proof.
  apply (hydrate_is_deterministic_and_pure example_store 0%nat 3%nat);
    reflexivity.
Defined.

(** * The registry *)









(** [entries.find((e) => e.name === entityName)] *)
Lemma find_name_None (es : list Entry) n :
  (∀ e, e ∈ es → name e ≠ n) →
  List.find (λ e, String.eqb (name e) n) es = None.
Proof.
  intros Hne. induction es as [|e es IH]; [done|]. cbn.
  destruct (String.eqb (name e) n) eqn:He.
  - apply String.eqb_eq in He. destruct (Hne e); [by left | done].
  - apply IH. intros e' He'. apply Hne. by right.
Qed.

Lemma find_name_Some (es : list Entry) n e :
  e ∈ es → name e = n →
  ∃ e', List.find (λ e, String.eqb (name e) n) es = Some e' ∧
        e' ∈ es ∧ name e' = n.
Proof.
  intros Hin Hn. induction es as [|x es IH]; [by apply elem_of_nil in Hin|].
  cbn. destruct (String.eqb (name x) n) eqn:Hx.
  - exists x. apply String.eqb_eq in Hx. split; [done|]. split; [by left|done].
  - apply elem_of_cons in Hin as [->|Hin].
    + rewrite Hn, String.eqb_refl in Hx. done.
    + destruct (IH Hin) as (e' & ? & ? & ?). exists e'.
      split; [done|]. split; [by right|done].
Qed.

Lemma find_name_inv (es : list Entry) n e :
  List.find (λ e, String.eqb (name e) n) es = Some e →
  e ∈ es ∧ name e = n.
Proof.
  intros [Hin Hn]%find_some. split; [by apply list_elem_of_In|].
  by apply String.eqb_eq.
Qed.

Lemma find_name_first (pre post : list Entry) e n :
  (∀ x, x ∈ pre → name x ≠ n) → name e = n →
  List.find (λ e, String.eqb (name e) n) (pre ++ e :: post) = Some e.
Proof.
  intros Hpre Hn. induction pre as [|x pre IH]; cbn.
  - by rewrite Hn, String.eqb_refl.
  - destruct (String.eqb (name x) n) eqn:Hx.
    + apply String.eqb_eq in Hx. destruct (Hpre x); [by left|done].
    + apply IH. intros y Hy. apply Hpre. by right.
Qed.

Section RegistryFacts.
Context {host : Host} {World Row : Type}.
Implicit Types m : HistoryModule World Row.

(** What the registry holds after a run of registrations. *)
Lemma registerAll_entries cs m :
  entries (registerAll cs m) =
    entries m ++ map createHistoryEntityAndSubscriber cs ∧
  config (registerAll cs m) = config m.
Proof.
  revert m. induction cs as [|c cs IH]; intros m.
  - cbn. by rewrite app_nil_r.
  - change (registerAll (c :: cs) m)
      with (registerAll cs (snd (trackHistory c m))).
    destruct (IH (snd (trackHistory c m))) as [-> ->]. cbn.
    by rewrite <-app_assoc.
Qed.

(** The lookup: the first entry stored under the lower-cased name of the
    argument, handed to [config.getRepository]. *)
Lemma getHistoryRepository_unfold target m :
  getHistoryRepository target m =
    match List.find (λ e, String.eqb (name e)
                       (toLocaleLowerCase (targetString target)))
            (entries m) with
    | None => (Throw NotRegistered, m)
    | Some e => configGetRepository (ByEntity (entity e)) m
    end.
Proof.
  unfold getHistoryRepository, bind, readEntries, ret, throw.
  by destruct (List.find _ _).
Qed.

Lemma configGetRepository_unfold target m :
  configGetRepository target m =
    (match config m with
     | None => Throw TypeError
     | Some cfg => external (getRepository cfg target)
     end, m).
Proof. unfold configGetRepository. by destruct (config m). Qed.

Lemma getHistoryRepository_state m (entityClass : EntityTarget) :
  snd (getHistoryRepository entityClass m) = m.
Proof.
  rewrite getHistoryRepository_unfold.
  destruct (List.find _ _); [|done]. by rewrite configGetRepository_unfold.
Qed.


Lemma call_entries (c : Call World Row) m :
  entries (call c m) =
    entries m ++
    match c with
    | CallDecorator t | CallTrackHistory t =>
        [createHistoryEntityAndSubscriber t]
    | _ => []
    end.
Proof.
  destruct c as [cfg|t|t| | |t]; unfold call;
    rewrite ?getHistoryRepository_state, ?app_nil_r; done.
Qed.

Lemma call_config (c : Call World Row) m :
  config (call c m) =
    match configuredBy c with Some cfg => Some cfg | None => config m end.
Proof.
  destruct c as [cfg|t|t| | |t]; unfold call;
    rewrite ?getHistoryRepository_state; done.
Qed.

(** Once set up, the module stays configured. *)
Lemma calls_configured (cs : list (Call World Row)) m :
  is_Some (config m) → is_Some (config (calls cs m)).
Proof.
  revert m. induction cs as [|c cs IH]; intros m Hm; [done|].
  change (calls (c :: cs) m) with (calls cs (call c m)).
  apply IH. rewrite call_config. by destruct (configuredBy c).
Qed.

Lemma createHistoryEntityAndSubscriber_wellFormed c :
  wellFormedEntry (createHistoryEntityAndSubscriber c).
Proof. by repeat split. Qed.

Lemma calls_wellFormed (cs : list (Call World Row)) m :
  Forall wellFormedEntry (entries m) →
  Forall wellFormedEntry (entries (calls cs m)).
Proof.
  intros Hm. revert m Hm. induction cs as [|c cs IH]; intros m Hm; [done|].
  change (calls (c :: cs) m) with (calls cs (call c m)).
  apply IH. rewrite call_entries. apply Forall_app. split; [done|].
  destruct c; repeat constructor.
Qed.

End RegistryFacts.

(** ** C5, as the code has it *)

(** C5 (amended): [getHistoryRepository] throws the unregistered-type
    error, and leaves the module as it was, for every class, name or
    object whose lower-cased name is the lower-cased name of no registered
    class, whether or not the module was set up; nothing is returned. *)
Theorem getHistoryRepository_unregistered_throws {host : Host} {World Row}
    (m0 : HistoryModule World Row) (cs : list Constructor)
    (target : EntityTarget) :
  entries m0 = [] →
  (∀ c, c ∈ cs →
     toLocaleLowerCase (class_name c) ≠
     toLocaleLowerCase (targetString target)) →
  getHistoryRepository target (registerAll cs m0) =
    (Throw NotRegistered, registerAll cs m0).
Proof.
  intros Hm0 Hne. rewrite getHistoryRepository_unfold.
  rewrite find_name_None; [done|].
  intros e He. destruct (registerAll_entries cs m0) as [Hes _].
  rewrite Hes, Hm0 in He. cbn in He.
  apply list_elem_of_In, in_map_iff in He as (c & <- & Hc).
  apply Hne. by apply list_elem_of_In.
Qed.

(** With [User] registered, the name [Order] is not found. *)
Lemma getHistoryRepository_unregistered_throws_witness :
  getHistoryRepository (host := asciiHost) (TargetName "Order")
      (registerAll (host := asciiHost) [User] (afterSetup recordingConfig)) =
    (Throw NotRegistered,
     registerAll (host := asciiHost) [User] (afterSetup recordingConfig)).
Proof.
  apply (getHistoryRepository_unregistered_throws (host := asciiHost)
           (afterSetup recordingConfig) [User] (TargetName "Order")).
  - reflexivity.
  - intros c Hc. apply list_elem_of_In in Hc. destruct Hc as [<-|[]].
    vm_compute. discriminate.
Defined.

(** C5, as stated, fails for a class that was never registered but whose
    name differs only in case from the name of a registered one: the
    lookup succeeds and hands out the other class's repository. *)
Lemma getHistoryRepository_finds_namesake :
  (USER ∉ [User]) ∧
  getHistoryRepository (host := asciiHost) (TargetClass USER)
      (registerAll (host := asciiHost) [User] (afterSetup recordingConfig)) =
    (Ok (recordingRepository
           (ByEntity {| tableName := "user_history"; originEntity := "User" |})),
     registerAll (host := asciiHost) [User] (afterSetup recordingConfig)) ∧
  getHistoryRepository (host := asciiHost) (TargetName "USER")
      (registerAll (host := asciiHost) [User] (afterSetup recordingConfig)) =
    (Ok (recordingRepository
           (ByEntity {| tableName := "user_history"; originEntity := "User" |})),
     registerAll (host := asciiHost) [User] (afterSetup recordingConfig)).
Proof.
  split; [|split; reflexivity].
  intros H. apply list_elem_of_In in H. destruct H as [H|[]]. discriminate H.
Qed.

(** ** C8 *)



(** ** C10 *)

(** C10: the decorator and the function run the same registration: from
    the same module they reach the same module, whose registry has one
    more entry, the one made for the class; so [getEntities],
    [getSubscribers] and [getHistoryRepository] answer alike afterwards.
    The decorator returns its target, the function returns nothing. *)
Theorem TrackHistory_same_as_trackHistory {host : Host} {World Row}
    (target : Constructor) (m : HistoryModule World Row) :
  let m' := {| entries := entries m ++ [createHistoryEntityAndSubscriber target];
               config := config m |} in
  TrackHistory target m = (Ok target, m') ∧
  trackHistory target m = (Ok tt, m') ∧
  snd (TrackHistory target m) = snd (trackHistory target m) ∧
  getEntities (snd (TrackHistory target m)) =
    getEntities (snd (trackHistory target m)) ∧
  getSubscribers (snd (TrackHistory target m)) =
    getSubscribers (snd (trackHistory target m)) ∧
  (∀ t, getHistoryRepository t (snd (TrackHistory target m)) =
        getHistoryRepository t (snd (trackHistory target m))) ∧
  fst (getEntities m') =
    Ok (map entity (entries m)
        ++ [entity (createHistoryEntityAndSubscriber target)]).
Proof.
  cbn zeta. repeat split; try reflexivity.
  unfold getEntities, bind, readEntries, ret. cbn. by rewrite map_app.
Qed.

(** * Further properties of the helpers and the registry *)

(** X1: [isEmptyObj] answers [false] exactly for an object or an array
    that has at least one key of its own; [undefined], [null], every
    primitive (also a non-empty string or a non-zero number), a [Date],
    [{}] and [[]] all count as empty. *)
Theorem isEmptyObj_false_iff (v : value) :
  isEmptyObj v = false ↔ ∃ o : Obj, (v = VObj o ∨ v = VArr o) ∧ o ≠ ∅.
Proof.
  split.
  - destruct v as [| |b|n|s|t|o|o]; unfold isEmptyObj; cbn;
      rewrite ?andb_false_r; try discriminate.
    + intros H. exists o. split; [by left|]. intros ->.
      by rewrite map_size_empty in H.
    + intros H. exists o. split; [by right|]. intros ->.
      by rewrite map_size_empty in H.
  - intros (o & [-> | ->] & Hne).
    + destruct (isEmptyObj (VObj o)) eqn:He; [|done].
      by apply isEmptyObj_object in He.
    + unfold isEmptyObj. cbn. apply negb_false_iff, negb_true_iff.
      apply Nat.eqb_neq. by intros ?%map_size_empty_iff.
Qed.

(** The stored record of the running example is not empty. *)
Lemma isEmptyObj_false_iff_witness :
  isEmptyObj (VObj example_previous) = false.
Proof.
  apply (proj2 (isEmptyObj_false_iff (VObj example_previous))).
  exists example_previous. split; [by left|].
  intros H. apply (f_equal (.!! "a")) in H. vm_compute in H. discriminate H.
Defined.

(** X2: [getHistoryRepository] leaves the module as it was, whether it
    returns or throws.  It throws the unregistered-type error exactly when
    no entry is stored under the lower-cased name of its argument.
    Otherwise it takes the first such entry: when [setup] has not run it
    throws a [TypeError], and when it has, it returns what
    [config.getRepository] returns for that entry's history entity, or
    throws what that call throws. *)
Theorem getHistoryRepository_throws_iff {host : Host} {World Row}
    (m : HistoryModule World Row) (entityClass : EntityTarget) :
  snd (getHistoryRepository entityClass m) = m ∧
  (fst (getHistoryRepository entityClass m) = Throw NotRegistered ↔
   ∀ e, e ∈ entries m →
     name e ≠ toLocaleLowerCase (targetString entityClass)) ∧
  (∀ e,
     List.find (λ e, String.eqb (name e)
                  (toLocaleLowerCase (targetString entityClass)))
       (entries m) = Some e →
     fst (getHistoryRepository entityClass m) =
       match config m with
       | None => Throw TypeError
       | Some cfg => external (getRepository cfg (ByEntity (entity e)))
       end) ∧
  (∀ err, fst (getHistoryRepository entityClass m) = Throw err →
     err = NotRegistered ∨
     (err = TypeError ∧ config m = None) ∨
     ∃ cfg e x, config m = Some cfg ∧ e ∈ entries m ∧
       getRepository cfg (ByEntity (entity e)) = Thrown x ∧
       err = External x).
Proof.
  split; [apply getHistoryRepository_state|].
  rewrite getHistoryRepository_unfold.
  destruct (List.find _ (entries m)) as [e|] eqn:Hfind.
  - rewrite configGetRepository_unfold. cbn [fst].
    apply find_name_inv in Hfind as [Hin Hn].
    split; [|split].
    + split.
      * destruct (config m) as [cfg|]; [|done].
        by destruct (getRepository cfg _).
      * intros Hne. by destruct (Hne e Hin).
    + by intros e' [= <-].
    + intros err Herr. right.
      destruct (config m) as [cfg|]; [|left; by injection Herr as <-].
      right. destruct (getRepository cfg _) as [r|x] eqn:Hget; [done|].
      injection Herr as <-. by exists cfg, e, x.
  - cbn [fst]. split; [|split].
    + split; [|done]. intros _ e Hin Hn.
      destruct (find_name_Some _ _ _ Hin Hn) as (e' & He' & _). congruence.
    + done.
    + intros err [= <-]. by left.
Qed.

(** With [User] registered, no entry is stored under [order]. *)
Lemma getHistoryRepository_throws_iff_witness :
  fst (getHistoryRepository (host := asciiHost) (TargetName "Order")
         (registerAll (host := asciiHost) [User]
            (afterSetup recordingConfig))) =
    Throw NotRegistered.
Proof.
  apply (proj2 (proj1 (proj2 (getHistoryRepository_throws_iff
           (host := asciiHost)
           (registerAll (host := asciiHost) [User] (afterSetup recordingConfig))
           (TargetName "Order"))))).
  intros e He. apply list_elem_of_In in He. destruct He as [<-|[]].
  vm_compute. discriminate.
Defined.

(** A lookup of a registered class before [setup] fails with a
    [TypeError], and on a layer without connection with that layer's
    error. *)
Example getHistoryRepository_without_setup :
  fst (getHistoryRepository (host := asciiHost) (TargetClass User)
         (registerAll (host := asciiHost) [User]
            (initialModule (World := list Recorded) (Row := HistoryInput)))) =
    Throw TypeError ∧
  fst (getHistoryRepository (host := asciiHost) (TargetClass User)
         (registerAll (host := asciiHost) [User]
            (afterSetup disconnectedConfig))) =
    Throw (External "connection not found").
Proof. split; reflexivity. Qed.

(** X3: when several registered classes have the same lower-cased name,
    the first one registered answers every lookup for that name: what is
    returned (or thrown) is what [config.getRepository] returns (or
    throws) for its history entity, whose [origin] refers to that first
    class. *)
Theorem getHistoryRepository_first_registration_wins {host : Host} {World Row}
    (cfg : Config World Row) (pre post : list Constructor)
    (c : Constructor) (entityClass : EntityTarget) :
  toLocaleLowerCase (targetString entityClass) =
    toLocaleLowerCase (class_name c) →
  (∀ c', c' ∈ pre →
     toLocaleLowerCase (class_name c') ≠ toLocaleLowerCase (class_name c)) →
  let m := registerAll (pre ++ c :: post) (afterSetup cfg) in
  getHistoryRepository entityClass m =
    (external
       (getRepository cfg
          (ByEntity
             {| tableName := toLocaleLowerCase (class_name c) +:+ "_history";
                originEntity := class_name c |})), m).
Proof.
  intros Hname Hpre m. rewrite getHistoryRepository_unfold.
  destruct (registerAll_entries (pre ++ c :: post) (afterSetup cfg))
    as [Hes Hcfg].
  fold m in Hes, Hcfg. rewrite Hes. cbn [afterSetup entries config app].
  rewrite map_app. cbn [map].
  rewrite (find_name_first _ _ (createHistoryEntityAndSubscriber c)).
  - rewrite configGetRepository_unfold, Hcfg. done.
  - intros x Hx. apply list_elem_of_In, in_map_iff in Hx as (c' & <- & Hc').
    rewrite Hname. apply Hpre. by apply list_elem_of_In.
  - by rewrite Hname.
Qed.

(** [User] is registered before [USER]: a lookup of [USER] is answered
    with the history of [User]. *)
Lemma getHistoryRepository_first_registration_wins_witness :
  getHistoryRepository (host := asciiHost) (TargetClass USER)
      (registerAll (host := asciiHost) [User; USER]
         (afterSetup recordingConfig)) =
    (Ok (recordingRepository
           (ByEntity {| tableName := "user_history"; originEntity := "User" |})),
     registerAll (host := asciiHost) [User; USER] (afterSetup recordingConfig)).
Proof.
  apply (getHistoryRepository_first_registration_wins (host := asciiHost)
           recordingConfig [] [USER] User (TargetClass USER)).
  - reflexivity.
  - intros c' Hc'. by apply elem_of_nil in Hc'.
Defined.

(** X4: after the classes [cs] were registered on a fresh module,
    [getSubscribers] and [getEntities] return one item per registration, in
    the order of registration: the subscribers listen to exactly [cs], and
    the entity at each position is the history entity of the class at that
    position, named by the lower-cased class name followed by [_history],
    which is also the name its subscriber writes to. *)
Theorem registrations_round_trip {host : Host} {World Row}
    (cfg : Config World Row) (cs : list Constructor) :
  ∃ ents subs,
    getEntities (registerAll cs (afterSetup cfg)) =
      (Ok ents, registerAll cs (afterSetup cfg)) ∧
    getSubscribers (registerAll cs (afterSetup cfg)) =
      (Ok subs, registerAll cs (afterSetup cfg)) ∧
    map listenTo subs = cs ∧
    map originEntity ents = map class_name cs ∧
    map tableName ents =
      map (λ c, toLocaleLowerCase (class_name c) +:+ "_history") cs ∧
    map historyEntityName subs = map tableName ents.
Proof.
  destruct (registerAll_entries cs (afterSetup cfg)) as [Hes _].
  cbn in Hes.
  exists (map entity (entries (registerAll cs (afterSetup cfg)))),
         (map subscriber (entries (registerAll cs (afterSetup cfg)))).
  split; [done|]. split; [done|]. rewrite Hes, !map_map. cbn.
  repeat split; by rewrite ?map_id.
Qed.

(** X5: the registry is append-only and the configuration is the last one
    installed.  After any sequence of calls of the exported functions, the
    entries are the entries from before followed by one entry for each
    registering call ([TrackHistory] or [trackHistory]), in call order (a
    class registered twice has two entries); [setup], [getEntities],
    [getSubscribers] and [getHistoryRepository] add, remove and reorder
    nothing; and [config] is the argument of the last [setup], or the old
    one (possibly none) if there was no [setup]. *)
Theorem registry_after_calls {host : Host} {World Row}
    (cs : list (Call World Row)) (m : HistoryModule World Row) :
  entries (calls cs m) =
    entries m ++ map createHistoryEntityAndSubscriber (omap registeredBy cs) ∧
  config (calls cs m) =
    match last (omap configuredBy cs) with
    | Some cfg => Some cfg
    | None => config m
    end.
Proof.
  revert m. induction cs as [|c cs IH]; intros m.
  - cbn. by rewrite app_nil_r.
  - change (calls (c :: cs) m) with (calls cs (call c m)).
    destruct (IH (call c m)) as [-> ->].
    rewrite call_entries, call_config, <-app_assoc. split.
    + f_equal. by destruct c.
    + destruct c as [cfg| | | | | ]; try done.
      cbn [omap list_omap configuredBy].
      destruct (omap configuredBy cs) as [|y l]; [done|].
      rewrite last_cons_cons.
      by destruct (proj2 (last_is_Some (y :: l))) as [z ->].
Qed.

(** X6: in a module that was set up and then used through the exported
    functions only, every entry is stored under the lower-cased name of the
    class its subscriber listens to, the module has a configuration, and
    for every registered subscriber, [getHistoryRepository] of the class it
    listens to asks that configuration for the repository of a history
    entity with the very name that the subscriber's [beforeUpdate] writes
    to, and returns or throws what the configuration does: what the hook
    writes is what the lookup reads. *)
Theorem lookup_reads_what_the_hook_writes {host : Host} {World Row}
    (cfg : Config World Row) (cs : list (Call World Row)) (e : Entry) :
  let m := calls cs (afterSetup cfg) in
  e ∈ entries m →
  wellFormedEntry e ∧
  ∃ e' cfg', e' ∈ entries m ∧ config m = Some cfg' ∧
    getHistoryRepository (TargetClass (listenTo (subscriber e))) m =
      (external (getRepository cfg' (ByEntity (entity e'))), m) ∧
    tableName (entity e') = historyEntityName (subscriber e).
Proof.
  intros m He.
  assert (Forall wellFormedEntry (entries m)) as Hwf.
  { apply calls_wellFormed. constructor. }
  rewrite Forall_forall in Hwf.
  destruct (Hwf e He) as (Hn & Ht & Hh & Ho). split; [done|].
  destruct (find_name_Some (entries m)
              (toLocaleLowerCase (class_name (listenTo (subscriber e)))) e
              He Hn) as (e' & Hfind & He' & Hn').
  assert (∃ cfg', config m = Some cfg') as [cfg' Hcfg].
  { apply (calls_configured cs (afterSetup cfg)). by eexists. }
  exists e', cfg'. split; [done|]. split; [done|]. split.
  - rewrite getHistoryRepository_unfold. cbn [targetString].
    by rewrite Hfind, configGetRepository_unfold, Hcfg.
  - destruct (Hwf e' He') as (_ & Ht' & _ & _).
    by rewrite Hh, Ht, Ht', Hn', Hn.
Qed.

(** The module after [setup], a registration of [User] by decorator and a
    second [setup] with a layer without connection: the entry of [User]
    is found, its table is [user_history], and the lookup ends with the
    error of that layer. *)
Lemma lookup_reads_what_the_hook_writes_witness :
  wellFormedEntry (host := asciiHost)
    (createHistoryEntityAndSubscriber (host := asciiHost) User) ∧
  ∃ e' cfg',
    e' ∈ entries (calls (host := asciiHost)
                    [CallDecorator User; CallSetup disconnectedConfig]
                    (afterSetup recordingConfig)) ∧
    config (calls (host := asciiHost)
              [CallDecorator User; CallSetup disconnectedConfig]
              (afterSetup recordingConfig)) = Some cfg' ∧
    getHistoryRepository (host := asciiHost) (TargetClass User)
        (calls (host := asciiHost)
           [CallDecorator User; CallSetup disconnectedConfig]
           (afterSetup recordingConfig)) =
      (external (getRepository cfg' (ByEntity (entity e'))),
       calls (host := asciiHost)
         [CallDecorator User; CallSetup disconnectedConfig]
         (afterSetup recordingConfig)) ∧
    tableName (entity e') = "user_history".
Proof.
  apply (lookup_reads_what_the_hook_writes (host := asciiHost) recordingConfig
           [CallDecorator User; CallSetup disconnectedConfig]
           (createHistoryEntityAndSubscriber (host := asciiHost) User)).
  vm_compute. left.
Defined.

(** X7: [setup] and registration commute, and the hook follows the latest
    [setup]: installing a configuration after registering classes gives
    the same module as installing it before, and an update seen by any
    subscriber is then written through that configuration, whatever was
    configured or registered earlier. *)
Theorem setup_and_registration_commute {host : Host} {World Row}
    (cfg : Config World Row) (cs : list Constructor)
    (m : HistoryModule World Row) :
  snd (setup cfg (registerAll cs m)) = registerAll cs (snd (setup cfg m)) ∧
  ∀ self ev w,
    beforeUpdate self ev (snd (setup cfg (registerAll cs m))) w =
    beforeUpdate self ev (afterSetup cfg) w.
Proof.
  split; [|done].
  destruct (registerAll_entries cs m) as [Hes _].
  destruct (registerAll_entries cs (snd (setup cfg m))) as [Hes' Hcfg'].
  destruct (registerAll cs (snd (setup cfg m))) as [es' cfg'].
  cbn in *. by rewrite Hes, Hes', Hcfg'.
Qed.

(** * Further properties of the update hook *)

Lemma diff_against_empty {host : Host} (o : Obj) :
  deepDiff (VObj o) (VObj ∅) = VObj ((λ _, VUndef) <$> o).
Proof.
  unfold deepDiff. rewrite (proj1 (diff_objects _ _)). f_equal.
  apply map_eq. intros k.
  rewrite lookup_merge_diffKey, lookup_fmap, lookup_empty.
  by destruct (o !! k).
Qed.

(** X8: when the hook writes.  On the recording layer it adds the row
    built from the event when the computed diff has a key, and nothing
    otherwise.  The diff has no key when the incoming state equals the
    stored one and holds no [NaN]; and when the diff has no key, the two
    states are equal, provided that wherever both hold an object the two
    objects are of one kind (two plain objects, two arrays, two dates). *)
Theorem beforeUpdate_writes_iff_changed {host : Host} (ev : UpdateEvent.t) :
  (newEntity ev = oldEntity ev →
   nanFree (VObj (newEntity ev)) = true →
   computedDiff ev = VObj ∅) ∧
  (computedDiff ev = VObj ∅ →
   kindsAgree (VObj (newEntity ev)) (VObj (oldEntity ev)) = true →
   newEntity ev = oldEntity ev) ∧
  (∀ self es written,
     beforeUpdate self ev (recordingModule es) written =
       (Ok tt,
        if isEmptyObj (computedDiff ev) then written
        else written ++ [ (ByName (historyEntityName self), historyInput ev) ])) ∧
  (newEntity ev ≠ oldEntity ev →
   kindsAgree (VObj (newEntity ev)) (VObj (oldEntity ev)) = true →
   ∀ self es written,
     beforeUpdate self ev (recordingModule es) written =
       (Ok tt, written ++ [ (ByName (historyEntityName self), historyInput ev) ])).
Proof.
  assert (computedDiff ev = VObj ∅ →
          kindsAgree (VObj (newEntity ev)) (VObj (oldEntity ev)) = true →
          newEntity ev = oldEntity ev) as Hback.
  { rewrite computedDiff_object. intros [= Hm] Hkinds.
    apply (merge_diffKey_empty_eq _ _); [|done].
    intros k a b Ha Hb. apply noDifference_eq.
    by eapply kindsAgree_lookup. }
  split; [|split; [done|split]].
  - intros Heq Hnan. unfold computedDiff. rewrite <-Heq. by apply diff_same.
  - intros self es written. rewrite beforeUpdate_unfold.
    by destruct (isEmptyObj (computedDiff ev)).
  - intros Hne Hkinds self es written. rewrite beforeUpdate_write; [done|].
    intros Hd. by apply Hne, Hback.
Qed.

(** The example update changes [b]: one row is recorded. *)
Lemma beforeUpdate_writes_iff_changed_witness :
  beforeUpdate (host := asciiHost) user_subscriber example_event
      (recordingModule []) [] =
    (Ok tt, [ (ByName (historyEntityName user_subscriber),
               historyInput (host := asciiHost) example_event) ]).
Proof.
  refine (proj2 (proj2 (proj2 (beforeUpdate_writes_iff_changed
            (host := asciiHost) example_event))) _ _
            user_subscriber [] []).
  - intros H. apply (f_equal (.!! "b")) in H. vm_compute in H. discriminate H.
  - vm_compute. reflexivity.
Defined.

(** X9: when the event has no [databaseEntity] (or an empty one), the
    stored state is taken to be [{}]: the diff lists every key of the
    incoming state with the value [undefined], the [origin] of the entry
    is [undefined], and such an entry is written whenever the incoming
    state has a key. *)
Theorem beforeUpdate_missing_databaseEntity {host : Host}
    (ev : UpdateEvent.t) :
  UpdateEvent.databaseEntity ev = None ∨
  UpdateEvent.databaseEntity ev = Some ∅ →
  computedDiff ev = VObj ((λ _, VUndef) <$> newEntity ev) ∧
  input_origin (historyInput ev) = VUndef ∧
  (newEntity ev ≠ ∅ →
   ∀ self es written,
     beforeUpdate self ev (recordingModule es) written =
       (Ok tt,
        written ++
        [ (ByName (historyEntityName self),
           {| input_origin := VUndef;
              input_diff := VObj ((λ _, VUndef) <$> newEntity ev);
              input_historyDetails :=
                get (UpdateEvent.data (UpdateEvent.queryRunner ev))
                    "historyDetails" |}) ])).
Proof.
  intros Hdb.
  assert (oldEntity ev = ∅) as Hold.
  { unfold oldEntity. by destruct Hdb as [-> | ->]. }
  assert (computedDiff ev = VObj ((λ _, VUndef) <$> newEntity ev)) as Hd.
  { unfold computedDiff. rewrite Hold. apply diff_against_empty. }
  assert (input_origin (historyInput ev) = VUndef) as Hor.
  { cbn. by rewrite Hold. }
  split; [done|]. split; [done|].
  intros Hne self es written. rewrite beforeUpdate_write.
  - rewrite writeHistory_recording.
    do 3 f_equal. unfold historyInput. rewrite Hd. cbn in Hor. by rewrite Hor.
  - rewrite Hd. intros [= He]. by apply fmap_empty_inv in He.
Qed.

(** A record unknown to the database: both keys are recorded with
    [undefined] and the entry has no origin. *)
Lemma beforeUpdate_missing_databaseEntity_witness :
  beforeUpdate (host := asciiHost) user_subscriber example_unknown_event
      (recordingModule []) [] =
    (Ok tt,
     [ (ByName "user_history",
        {| input_origin := VUndef;
           input_diff := VObj ((λ _, VUndef) <$> example_incoming);
           input_historyDetails := VUndef |}) ]).
Proof.
  refine (proj2 (proj2 (beforeUpdate_missing_databaseEntity (host := asciiHost)
            example_unknown_event (or_introl eq_refl))) _
            user_subscriber [] []).
  intros H. apply (f_equal (.!! "b")) in H. vm_compute in H. discriminate H.
Defined.



Example beforeUpdate_without_setup :
  beforeUpdate (host := asciiHost) user_subscriber example_event
      (initialModule (World := list Recorded) (Row := HistoryInput)) [] =
    (Throw TypeError, []) ∧
  beforeUpdate (host := asciiHost) user_subscriber example_event
      {| entries := []; config := Some disconnectedConfig |} [] =
    (Throw (External "connection not found"), []).
Proof.
  split.
  - vm_cast_no_check
      (eq_refl (beforeUpdate (host := asciiHost) user_subscriber example_event
                  (initialModule (World := list Recorded)
                     (Row := HistoryInput)) [])).
  - vm_cast_no_check
      (eq_refl (beforeUpdate (host := asciiHost) user_subscriber example_event
                  {| entries := []; config := Some disconnectedConfig |} [])).
Qed.
(** * Further properties of [hydrate] *)

Lemma mapHistory_app pivot h1 h2 :
  mapHistory pivot (h1 ++ h2) =
    mapHistory pivot h1 ++ mapHistory (fold_left nextPivot h1 pivot) h2.
Proof.
  revert pivot. induction h1 as [|h h1 IH]; intros pivot; [done|].
  cbn. by rewrite IH.
Qed.

Lemma last_mapHistory pivot h1 h :
  last (mapHistory pivot (h1 ++ [h])) =
    Some (fold_left nextPivot (h1 ++ [h]) pivot).
Proof.
  rewrite mapHistory_app. cbn [mapHistory]. rewrite last_snoc.
  by rewrite fold_left_app.
Qed.

Lemma lookup_mapHistory pivot history i out :
  mapHistory pivot history !! i = Some out →
  out = fold_left nextPivot (take (S i) history) pivot.
Proof.
  revert pivot i. induction history as [|h rest IH]; intros pivot i; [done|].
  destruct i as [|i]; cbn.
  - intros [= <-]. by rewrite take_0.
  - apply IH.
Qed.

Lemma not_entryKey (k : string) :
  k ≠ "id" → k ≠ "historyDetails" → k ≠ "createdAt" → k ∉ entryKeys.
Proof.
  intros H1 H2 H3 Hin. unfold entryKeys in Hin.
  apply list_elem_of_In in Hin. cbn in Hin. intuition congruence.
Qed.

Lemma entryKey_ne (k : string) :
  k ∉ entryKeys → k ≠ "id" ∧ k ≠ "historyDetails" ∧ k ≠ "createdAt".
Proof.
  intros Hk. repeat split; intros ->; apply Hk, list_elem_of_In; cbn; tauto.
Qed.

Lemma nextPivot_lookup pivot h k :
  k ∉ entryKeys →
  nextPivot pivot h !! k =
    match diff h !! k with Some v => Some v | None => pivot !! k end.
Proof.
  intros (H1 & H2 & H3)%entryKey_ne. unfold nextPivot.
  rewrite !lookup_insert_ne by done.
  rewrite lookup_union. by destruct (diff h !! k), (pivot !! k).
Qed.

Lemma lastWrite_snoc k history h :
  lastWrite k (history ++ [h]) =
    match diff h !! k with Some v => Some v | None => lastWrite k history end.
Proof. unfold lastWrite. by rewrite foldl_snoc. Qed.

Lemma fold_nextPivot_lookup pivot history k :
  k ∉ entryKeys →
  fold_left nextPivot history pivot !! k =
    match lastWrite k history with Some v => Some v | None => pivot !! k end.
Proof.
  intros Hk. induction history as [|h history IH] using rev_ind; [done|].
  rewrite fold_left_app, lastWrite_snoc. cbn.
  rewrite nextPivot_lookup by done. by destruct (diff h !! k).
Qed.

Lemma fold_nextPivot_is_Some pivot history k :
  is_Some (pivot !! k) → is_Some (fold_left nextPivot history pivot !! k).
Proof.
  revert pivot. induction history as [|h history IH]; intros pivot Hp; [done|].
  cbn. apply IH. unfold nextPivot.
  rewrite !lookup_insert_is_Some'. do 3 right.
  rewrite lookup_union_is_Some. by right.
Qed.

Lemma start_originId (current : Obj) :
  assign {[ "originId" := get current "id" ]} current !! "originId" =
    Some (default (get current "id") (current !! "originId")).
Proof.
  unfold assign. rewrite lookup_union, lookup_singleton_eq.
  by destruct (current !! "originId").
Qed.

Lemma start_other (current : Obj) k :
  k ≠ "originId" →
  assign {[ "originId" := get current "id" ]} current !! k = current !! k.
Proof.
  intros Hk. unfold assign.
  by rewrite lookup_union_l by by rewrite lookup_singleton_ne.
Qed.

(** X11: snapshots do not depend on later entries, and [hydrate] can be
    resumed: the output for a history extended by more entries starts with
    the output for the history itself, and it continues with what
    [hydrate] returns for the last snapshot (taken as the current record)
    and the added entries. *)
Theorem hydrate_app (current : Obj) (h1 h2 : list History) :
  take (length h1) (hydrate current (h1 ++ h2)) = hydrate current h1 ∧
  ∀ p, last (hydrate current h1) = Some p →
    hydrate current (h1 ++ h2) = hydrate current h1 ++ hydrate p h2.
Proof.
  unfold hydrate at 1 2 3 4 5. cbn zeta.
  set (start := assign {[ "originId" := get current "id" ]} current).
  rewrite mapHistory_app. split.
  - rewrite take_app_length'; [done|]. by rewrite length_mapHistory.
  - intros p Hp. f_equal.
    destruct h1 as [|h h1 _] using rev_ind; [done|].
    rewrite last_mapHistory in Hp. injection Hp as <-.
    unfold hydrate. rewrite assign_originId.
    case_decide as Hid; [done|]. destruct Hid.
    apply fold_nextPivot_is_Some. unfold start. rewrite start_originId.
    by eexists.
Qed.

(** John's history, cut after its first entry and resumed from the first
    snapshot. *)
Lemma hydrate_app_witness :
  ∃ p, last (hydrate john (take 1 john_history)) = Some p ∧
    hydrate john (take 1 john_history ++ drop 1 john_history) =
      hydrate john (take 1 john_history) ++ hydrate p (drop 1 john_history).
Proof.
  eexists. split; [reflexivity|].
  apply (proj2 (hydrate_app john (take 1 john_history) (drop 1 john_history))).
  reflexivity.
Defined.

(** X12: a field of a snapshot holds the value of the most recent entry, up
    to the snapshot's own, whose [diff] has that field, and the value of
    the current record if there is no such entry: a field that no [diff]
    mentions is shown with today's value in every snapshot.  This holds
    for every key but [id], [historyDetails] and [createdAt], which come
    from the entry, and [originId], which the start pivot sets. *)
Theorem hydrate_field_last_write (current : Obj) (history : list History)
    (i : nat) (out : Obj) (k : string) :
  hydrate current history !! i = Some out →
  k ∉ entryKeys → k ≠ "originId" →
  out !! k =
    match lastWrite k (take (S i) history) with
    | Some v => Some v
    | None => current !! k
    end.
Proof.
  intros Hout Hk Ho. apply lookup_mapHistory in Hout as ->.
  rewrite fold_nextPivot_lookup by done. by rewrite start_other.
Qed.

(** In John's history the first entry changes [firstName] only: the first
    snapshot shows today's [lastName]. *)
Lemma hydrate_field_last_write_witness :
  ∃ out, hydrate john john_history !! 0%nat = Some out ∧
    out !! "lastName" = Some (VStr "Wong").
Proof.
  eexists. split; [reflexivity|].
  refine (hydrate_field_last_write john john_history 0 _ "lastName"
            eq_refl _ _).
  - apply not_entryKey; discriminate.
  - discriminate.
Defined.

(** X13: [hydrate] never drops a field: every snapshot has all the fields
    of the current record together with [originId], [id],
    [historyDetails] and [createdAt], and each snapshot has all the fields
    of the one before it. *)
Theorem hydrate_fields_grow (current : Obj) (history : list History) :
  (∀ i out, hydrate current history !! i = Some out →
     dom current ∪ {[ "originId"; "id"; "historyDetails"; "createdAt" ]}
       ⊆ dom out) ∧
  (∀ i a b, hydrate current history !! i = Some a →
     hydrate current history !! S i = Some b → dom a ⊆ dom b).
Proof.
  assert (∀ p h, dom p ⊆ dom (nextPivot p h)) as Hstep.
  { intros p h. unfold nextPivot. rewrite !dom_insert_L, dom_union_L.
    intros x Hx. by do 4 (apply elem_of_union; right). }
  assert (∀ hs p, dom p ⊆ dom (fold_left nextPivot hs p)) as Hfold.
  { induction hs as [|h hs IH]; intros p; [done|]. cbn.
    etrans; [apply (Hstep p h)|apply IH]. }
  split.
  - intros i out Hout.
    destruct (history !! i) as [h|] eqn:Hh.
    2:{ apply lookup_ge_None in Hh. apply lookup_lt_Some in Hout.
        unfold hydrate in Hout. rewrite length_mapHistory in Hout. lia. }
    apply lookup_mapHistory in Hout as ->.
    rewrite (take_S_r _ _ _ Hh), fold_left_app. cbn.
    set (start := assign {[ "originId" := get current "id" ]} current).
    assert (dom current ∪ {[ "originId" ]} ⊆ dom start) as Hstart.
    { unfold start, assign. by rewrite dom_union_L, dom_singleton_L. }
    specialize (Hfold (take i history) start).
    unfold nextPivot. rewrite !dom_insert_L, dom_union_L.
    intros x [Hx|Hx]%elem_of_union.
    + do 4 (apply elem_of_union; right). apply Hfold, Hstart.
      apply elem_of_union. by left.
    + rewrite !elem_of_union, !elem_of_singleton in Hx.
      rewrite !elem_of_union, !elem_of_singleton.
      destruct Hx as [[[->| ->]| ->]| ->]; [|tauto..].
      do 4 right. apply Hfold, Hstart. apply elem_of_union. right.
      by apply elem_of_singleton.
  - intros i a b Ha Hb.
    destruct (history !! S i) as [h|] eqn:Hh.
    2:{ apply lookup_ge_None in Hh. apply lookup_lt_Some in Hb.
        unfold hydrate in Hb. rewrite length_mapHistory in Hb. lia. }
    apply lookup_mapHistory in Ha as ->. apply lookup_mapHistory in Hb as ->.
    rewrite (take_S_r _ (S i) _ Hh), fold_left_app. cbn. apply Hstep.
Qed.

(** The first snapshot of John's history has all of John's fields. *)
Lemma hydrate_fields_grow_witness :
  ∃ out, hydrate john john_history !! 0%nat = Some out ∧
    dom john ∪ {[ "originId"; "id"; "historyDetails"; "createdAt" ]}
      ⊆ dom out.
Proof.
  eexists. split; [reflexivity|].
  apply (proj1 (hydrate_fields_grow john john_history) 0%nat).
  reflexivity.
Defined.

Lemma lastWrite_None k history :
  (∀ h, h ∈ history → diff h !! k = None) → lastWrite k history = None.
Proof.
  intros Hnone. induction history as [|h history IH] using rev_ind; [done|].
  rewrite lastWrite_snoc, (Hnone h) by (apply elem_of_app; right; by left).
  apply IH. intros h' Hh'. apply Hnone, elem_of_app. by left.
Qed.

(** X14: as long as no [diff] has an [originId] key, every snapshot carries
    the same [originId]: the one the current record has of its own, or
    else the current record's [id]. *)
Theorem hydrate_originId_stable (current : Obj) (history : list History)
    (i : nat) (out : Obj) :
  hydrate current history !! i = Some out →
  (∀ h, h ∈ take (S i) history → diff h !! "originId" = None) →
  out !! "originId" =
    Some (default (get current "id") (current !! "originId")).
Proof.
  intros Hout Hnone. apply lookup_mapHistory in Hout as ->.
  rewrite fold_nextPivot_lookup.
  - by rewrite (lastWrite_None _ _ Hnone), start_originId.
  - apply not_entryKey; discriminate.
Qed.

(** Both snapshots of John's history have [originId] 1. *)
Lemma hydrate_originId_stable_witness :
  ∃ out, hydrate john john_history !! 1%nat = Some out ∧
    out !! "originId" = Some (VNum 1).
Proof.
  eexists. split; [reflexivity|].
  refine (hydrate_originId_stable john john_history 1 _ eq_refl _).
  intros h Hh. apply list_elem_of_In in Hh. cbn in Hh.
  destruct Hh as [<-|[<-|[]]]; reflexivity.
Defined.

(** * Further properties of [hydrate] on the store *)

Lemma mapHistory_store_fresh items : ∀ hs pivot p s,
  Store.readObject s pivot = Some p →
  mapM (Store.readHistory s) items = Some hs →
  ∃ new,
    Store.mapHistory pivot items s =
      Some (seq (length s) (length items), s ++ new) ∧
    length new = length items.
Proof.
  induction items as [|entry rest IH]; intros hs pivot p s Hp Hhs.
  - exists []. by rewrite app_nil_r.
  - apply mapM_Some in Hhs.
    apply Forall2_cons_inv_l in Hhs as (h & hs' & Hh & Hrest & ->).
    set (fresh := Store.ObjectCell (nextPivot p h)).
    destruct (IH hs' (length s) (nextPivot p h) (s ++ [fresh]))
      as (new & Hrun & Hlen).
    { apply readObject_alloc. }
    { apply mapM_readHistory_app. by apply mapM_Some. }
    exists ([fresh] ++ new). split; [|cbn; by rewrite Hlen].
    cbn [Store.mapHistory].
    rewrite (op_bind_Some _ _ _ h s) by by apply loadHistory_read.
    rewrite (op_bind_Some _ _ _ p s) by by apply loadObject_read.
    rewrite (op_bind_Some _ _ _ (length s) (s ++ [fresh])) by done.
    rewrite (op_bind_Some _ _ _ _ _ Hrun).
    rewrite length_app, <-app_assoc. cbn [length seq].
    by rewrite Nat.add_1_r.
Qed.

(** X15: every snapshot that [hydrate] returns is a new object: the
    returned array is new, its elements are pairwise different references,
    one per entry, and none of them is a reference that existed before the
    call, so that no snapshot is the current record, an entry, a [diff], or
    another snapshot. *)
Theorem hydrate_returns_new_objects
    (s : Store.store) (current history : Store.loc)
    (c : Obj) (hs : list History) :
  Store.readObject s current = Some c →
  Store.readHistories s history = Some hs →
  ∃ out s' items,
    Store.hydrate current history s = Some (out, s') ∧
    s' !! out = Some (Store.ArrayCell items) ∧
    length items = length hs ∧
    NoDup items ∧
    Forall (λ l, length s ≤ l ∧ l ≠ out)%nat items ∧
    (length s ≤ out)%nat.
Proof.
  intros Hc Hhs.
  set (start := Store.ObjectCell (assign {[ "originId" := get c "id" ]} c)).
  unfold Store.readHistories, Store.loadArray in Hhs.
  destruct (s !! history) as [[| |items]|] eqn:Hitems; cbn in Hhs; try done.
  destruct (mapHistory_store_fresh items hs (length s)
              (assign {[ "originId" := get c "id" ]} c) (s ++ [start]))
    as (new & Hrun & Hlen).
  { apply readObject_alloc. }
  { by apply mapM_readHistory_app. }
  assert (length items = length hs) as Hn by by eapply length_mapM.
  exists (length ((s ++ [start]) ++ new)),
         (((s ++ [start]) ++ new) ++
            [Store.ArrayCell (seq (length (s ++ [start])) (length items))]),
         (seq (length (s ++ [start])) (length items)).
  split; [|split; [|split; [|split; [|split]]]].
  - unfold Store.hydrate.
    rewrite (op_bind_Some _ _ _ c s) by by apply loadObject_read.
    rewrite (op_bind_Some _ _ _ (length s)
               (s ++ [Store.ObjectCell {[ "originId" := get c "id" ]}]))
      by done.
    rewrite (op_bind_Some _ _ _ (length s) (s ++ [start]))
      by by apply objectAssign_fresh.
    rewrite (op_bind_Some _ _ _ items (s ++ [start])).
    2:{ unfold Store.loadArray.
        by rewrite (lookup_app_l_Some _ _ _ _ Hitems). }
    by rewrite (op_bind_Some _ _ _ _ _ Hrun).
  - by apply list_lookup_middle.
  - by rewrite length_seq.
  - apply NoDup_seq.
  - apply Forall_forall. intros l Hl. apply elem_of_seq in Hl.
    rewrite !length_app in *. cbn [length] in *. lia.
  - rewrite !length_app. lia.
Qed.

(** On the example store the call returns a new array with one new
    object. *)
Lemma hydrate_returns_new_objects_witness :
  ∃ out s' items,
    Store.hydrate 0%nat 3%nat example_store = Some (out, s') ∧
    s' !! out = Some (Store.ArrayCell items) ∧
    length items = 1%nat ∧
    NoDup items ∧
    Forall (λ l, length example_store ≤ l ∧ l ≠ out)%nat items ∧
    (length example_store ≤ out)%nat.
Proof.
  apply (hydrate_returns_new_objects example_store 0%nat 3%nat john
           [mkHistory 1 VUndef {[ "firstName" := VStr "Peter" ]} VNull 100]);
    reflexivity.
Defined.

(** * The hook and [hydrate] together *)

(** Writing the recorded diff over the new state gives back the old
    state. *)
Lemma recorded_diff_undoes_update {host : Host} (new old : Obj) :
  dom new ⊆ dom old → sameOrFlat new old →
  merge diffKey new old ∪ new = old.
Proof.
  intros Hdom Hflat. apply map_eq. intros k.
  rewrite lookup_union, lookup_merge_diffKey.
  destruct (new !! k) as [a|] eqn:Ha, (old !! k) as [b|] eqn:Hb; cbn;
    try done.
  - destruct (Hflat k a b Ha Hb) as [[-> Hnan]|Hprim].
    + by rewrite noDifference_same.
    + rewrite diff_primitive by done.
      destruct (DeepObjectDiff.strictEq a b) eqn:Hse.
      * apply strictEq_eq in Hse as ->.
        unfold DeepObjectDiff.noDifference.
        rewrite isEmptyObject_empty. cbn.
        by destruct (DeepObjectDiff.isEmptyObject b).
      * unfold DeepObjectDiff.noDifference.
        destruct (DeepObjectDiff.isEmptyObject b) eqn:Hb';
          destruct (DeepObjectDiff.isEmptyObject a) eqn:Ha'; cbn;
          rewrite ?andb_false_r; try done.
        unfold DeepObjectDiff.isEmptyObject in Ha', Hb'.
        apply andb_true_iff in Ha' as [Ha' _].
        apply andb_true_iff in Hb' as [Hb' _].
        by rewrite Ha', Hb' in Hprim.
  - assert (k ∈ dom old) as Hk by (apply Hdom, elem_of_dom; by eexists).
    apply elem_of_dom in Hk as [? Hk]. congruence.
Qed.

Lemma not_snapshotKey (k : string) :
  k ∉ snapshotKeys → k ≠ "originId" ∧ k ∉ entryKeys.
Proof.
  unfold snapshotKeys. intros Hk. split.
  - intros ->. apply Hk. by left.
  - intros Hin. apply Hk. by right.
Qed.

Lemma mapHistory_undoes_updates {host : Host} history :
  ∀ earlier pivot current,
  (∀ k, k ∉ snapshotKeys → pivot !! k = current !! k) →
  recordedNewestFirst current earlier history →
  ∀ j out old, mapHistory pivot history !! j = Some out →
    earlier !! j = Some old →
    ∀ k, k ∉ snapshotKeys → out !! k = old !! k.
Proof.
  induction history as [|h history IH];
    intros earlier pivot current Hagree Hrec j out old Hout Hold; [done|].
  destruct earlier as [|o earlier]; [done|].
  destruct Hrec as (Hdiff & Hdom & Hflat & Hrec).
  assert (∀ k, k ∉ snapshotKeys → nextPivot pivot h !! k = o !! k) as Hnext.
  { intros k Hk. destruct (not_snapshotKey k Hk) as [_ Hk'].
    rewrite nextPivot_lookup by done.
    rewrite computedDiff_object in Hdiff. injection Hdiff as Hdiff.
    change (newEntity (updateEvent current o)) with current in Hdiff.
    change (oldEntity (updateEvent current o)) with o in Hdiff.
    assert (o !! k = (merge diffKey current o ∪ current) !! k) as ->
      by by rewrite recorded_diff_undoes_update.
    rewrite lookup_union, Hdiff, (Hagree k Hk).
    by destruct (diff h !! k), (current !! k). }
  destruct j as [|j]; cbn in Hout, Hold.
  - injection Hout as <-. injection Hold as <-. exact Hnext.
  - by eapply (IH earlier (nextPivot pivot h) o).
Qed.

Lemma primitives_sameOrFlat (new old : Obj) :
  map_Forall (λ _ v, DeepObjectDiff.isObject v = false) new →
  sameOrFlat new old.
Proof.
  intros Hprim k a b Ha Hb. right. by rewrite (Hprim k a Ha).
Qed.

(** X16: the diffs that the hook records undo the updates they were
    recorded for.  When [history] holds, newest first, the diffs computed
    by [beforeUpdate] for the updates that led to the current record, and
    no update added a key, replaced an object by a different object or
    kept a value with a [NaN] in it, then the snapshots of [hydrate] are
    the earlier states of the record, newest first: snapshot [j] agrees
    with the state [j + 1] updates ago on every key but [originId], [id],
    [historyDetails] and [createdAt]. *)
Theorem hydrate_undoes_recorded_updates {host : Host}
    (current : Obj) (earlier : list Obj) (history : list History) :
  recordedNewestFirst current earlier history →
  ∀ j out old, hydrate current history !! j = Some out →
    earlier !! j = Some old →
    ∀ k, k ∉ snapshotKeys → out !! k = old !! k.
Proof.
  intros Hrec. unfold hydrate.
  apply (mapHistory_undoes_updates history earlier _ current); [|done].
  intros k Hk. destruct (not_snapshotKey k Hk) as [Ho _].
  by apply start_other.
Qed.

(** Two updates undone: the field [b] of a record was 1, then 2, and is 3
    now.  With the two recorded entries, the newest first, the first
    snapshot shows [b] as 2 and the second shows it as 1. *)
Lemma hydrate_undoes_recorded_updates_witness :
  ∃ out0 out1,
    hydrate thrice_now thrice_history !! 0%nat = Some out0 ∧
    hydrate thrice_now thrice_history !! 1%nat = Some out1 ∧
    out0 !! "b" = Some (VNum 2) ∧
    out1 !! "b" = Some (VNum 1).
Proof.
  assert (recordedNewestFirst (host := asciiHost) thrice_now
            [thrice_before; thrice_first] thrice_history) as Hrec.
  { assert (∀ o : Obj,
      bool_decide (map_Forall (λ _ v, DeepObjectDiff.isObject v = false) o)
        = true →
      ∀ old, sameOrFlat o old) as Hflat.
    { intros o Ho old. apply primitives_sameOrFlat.
      by apply bool_decide_eq_true in Ho. }
    split; [|split; [|split; [|split; [|split; [|split]]]]].
    - vm_cast_no_check
        (eq_refl (computedDiff (host := asciiHost)
                    (updateEvent thrice_now thrice_before))).
    - refine (bool_decide_unpack (dom thrice_now ⊆ dom thrice_before) _).
      vm_compute. exact I.
    - apply Hflat. vm_compute. reflexivity.
    - vm_cast_no_check
        (eq_refl (computedDiff (host := asciiHost)
                    (updateEvent thrice_before thrice_first))).
    - refine (bool_decide_unpack (dom thrice_before ⊆ dom thrice_first) _).
      vm_compute. exact I.
    - apply Hflat. vm_compute. reflexivity.
    - exact I. }
  assert ("b" ∉ snapshotKeys) as Hb.
  { intros Hin. apply list_elem_of_In in Hin. cbn in Hin.
    intuition discriminate. }
  eexists. eexists. split; [reflexivity|]. split; [reflexivity|]. split.
  - exact (hydrate_undoes_recorded_updates (host := asciiHost) thrice_now
             [thrice_before; thrice_first] thrice_history Hrec
             0%nat _ thrice_before eq_refl eq_refl "b" Hb).
  - exact (hydrate_undoes_recorded_updates (host := asciiHost) thrice_now
             [thrice_before; thrice_first] thrice_history Hrec
             1%nat _ thrice_first eq_refl eq_refl "b" Hb).
Defined.
